(** * option-pricer: the Black-Scholes pricer of [main.py]

    A shallow embedding of the pricing core of [main.py] (the table
    [VALID_TIME_UNITS], the class [Option] with its constructor and its
    method [pricer_BS]) and the properties proved about it.

    Conventions of the embedding.
    - Python objects are the constructors of [value]: [None], [bool],
      [int], [float] and [str].  Arguments reach the constructor as such
      objects.
    - Floating-point numbers are idealised as real numbers: a Python
      [float] and a [numpy.float64] both carry an [R], and [np.log],
      [np.sqrt], [np.exp], [np.divide] are [ln], [sqrt], [exp] and the
      real division.  Rounding, overflow, infinities and NaN are outside
      the model; the numeric results are meaningful where the source's are
      finite.
    - [scipy.stats.norm.cdf] is the cumulative distribution function of
      the standard normal law, [norm_cdf]: one half plus the integral of
      [exp (- t^2 / 2)] from [0] to [x] over [sqrt (2 * PI)].  The module
      [Gauss] builds the integral and proves what is used of it: the
      symmetry, the monotonicity, the bounds [0] and [1], the density,
      and that [sqrt (2 * PI)] is the whole mass of the kernel.
    - Python raises [ZeroDivisionError] when a Python number is divided
      by zero and [TypeError] when an operand is not a number; the numpy
      operations on [float64] never raise.  Exceptions are the [Raise]
      results of the [result] monad; [print] appends to the output held
      in the [world]. *)

From Stdlib Require Import Reals Lra Psatz List String ZArith.
From Stdlib Require Import Bool Ascii DecimalString.
Import ListNotations.
Local Open Scope R_scope.

(** ** The standard normal distribution *)

Module Gauss.

(** *** Primitives of continuous functions *)

Section Primitive.
Variable f : R -> R.
Hypothesis f_cont : continuity f.

Definition integrable (a b : R) : Riemann_integrable f a b :=
  match Rle_dec a b with
  | left h => continuity_implies_RiemannInt h (fun x _ => f_cont x)
  | right h =>
      RiemannInt_P1
        (continuity_implies_RiemannInt (Rlt_le _ _ (Rnot_le_lt _ _ h))
           (fun x _ => f_cont x))
  end.

(** The signed area under [f] between [0] and [x]. *)
Definition area (x : R) : R := RiemannInt (integrable 0 x).

Lemma area_0 : area 0 = 0.
Proof. apply RiemannInt_P9. Qed.

(** The area is a primitive of [f] on the whole line. *)
Lemma area_deriv x : derivable_pt_lim area x (f x).
Proof.
  set (a := Rmin 0 x - 1). set (b := Rmax 0 x + 1).
  assert (Ha0 : a < 0) by (unfold a; pose proof (Rmin_l 0 x); lra).
  assert (Hax : a < x) by (unfold a; pose proof (Rmin_r 0 x); lra).
  assert (Hxb : x < b) by (unfold b; pose proof (Rmax_r 0 x); lra).
  assert (hab : a <= b) by lra.
  pose (C0 := fun (y : R) (_ : a <= y <= b) => f_cont y).
  pose proof (@RiemannInt_P27 f a b x hab C0 (conj Hax Hxb)) as D.
  apply (derivable_pt_lim_locally_ext
           (fun y => primitive hab (FTC_P1 hab C0) y
                     - RiemannInt (integrable a 0))
           area x a b).
  - lra.
  - intros z [Hz1 Hz2]. unfold primitive.
    destruct (Rle_dec a z) as [h1|h1]; [|lra].
    destruct (Rle_dec z b) as [h2|h2]; [|lra].
    unfold area.
    rewrite (RiemannInt_P5 (FTC_P1 hab C0 h1 h2) (integrable a z)).
    rewrite <- (RiemannInt_P26 (integrable a 0) (integrable 0 z)
                  (integrable a z)).
    ring.
  - replace (f x) with (f x - 0) by ring.
    apply (derivable_pt_lim_minus _
             (fun _ => RiemannInt (integrable a 0))).
    + exact D.
    + apply derivable_pt_lim_const.
Qed.

Lemma constant_integrable (m a b : R) :
  a <= b -> Riemann_integrable (fct_cte m) a b.
Proof.
  intros Hab. apply continuity_implies_RiemannInt; [exact Hab |].
  intros; apply derivable_continuous_pt, derivable_pt_const.
Qed.

Lemma area_le_bound (M x : R) :
  0 <= x -> (forall y, 0 <= y <= x -> f y <= M) -> area x <= M * x.
Proof.
  intros Hx Hb. unfold area.
  replace (M * x) with (RiemannInt (constant_integrable M 0 x Hx))
    by (rewrite RiemannInt_P15; ring).
  apply RiemannInt_P19; auto. intros y Hy. apply Hb. lra.
Qed.

Lemma area_ge_bound (M x : R) :
  0 <= x -> (forall y, 0 <= y <= x -> M <= f y) -> M * x <= area x.
Proof.
  intros Hx Hb. unfold area.
  replace (M * x) with (RiemannInt (constant_integrable M 0 x Hx))
    by (rewrite RiemannInt_P15; ring).
  apply RiemannInt_P19; auto. intros y Hy. apply Hb. lra.
Qed.
End Primitive.

Lemma Rabs_le_bounds (a b : R) : Rabs a <= b -> - b <= a <= b.
Proof.
  intros H. pose proof (Rle_abs a). pose proof (Rle_abs (- a)) as H'.
  rewrite Rabs_Ropp in H'. lra.
Qed.

Lemma integral_abs_bound (u : R -> R) (pr : Riemann_integrable u 0 1) (M : R) :
  (forall x, 0 < x < 1 -> Rabs (u x) <= M) ->
  Rabs (RiemannInt pr) <= M.
Proof.
  intros Hb.
  assert (H01 : 0 <= 1) by lra.
  assert (Hup : RiemannInt pr <= M).
  { replace M with (RiemannInt (constant_integrable M 0 1 H01))
      by (rewrite RiemannInt_P15; ring).
    apply RiemannInt_P19; [lra |]. intros x Hx.
    pose proof (Hb x Hx) as H. apply Rabs_le_bounds in H.
    unfold fct_cte. lra. }
  assert (Hlo : - M <= RiemannInt pr).
  { replace (- M) with (RiemannInt (constant_integrable (- M) 0 1 H01))
      by (rewrite RiemannInt_P15; ring).
    apply RiemannInt_P19; [lra |]. intros x Hx.
    pose proof (Hb x Hx) as H. apply Rabs_le_bounds in H.
    unfold fct_cte. lra. }
  apply Rabs_le. lra.
Qed.

(** A function whose derivative is nonnegative inside a segment does not
    decrease across it. *)
Lemma deriv_nonneg_incr (f f' : R -> R) (a b : R) :
  a <= b ->
  (forall c, a <= c <= b -> derivable_pt_lim f c (f' c)) ->
  (forall c, a < c < b -> 0 <= f' c) ->
  f a <= f b.
Proof.
  intros [Hlt | ->] Hd Hpos; [| lra].
  destruct (MVT_cor2 f f' a b Hlt Hd) as (c & Hc & Hin).
  pose proof (Hpos c Hin). nra.
Qed.

Lemma deriv_pos_incr (f f' : R -> R) (a b : R) :
  a < b ->
  (forall c, a <= c <= b -> derivable_pt_lim f c (f' c)) ->
  (forall c, a < c < b -> 0 < f' c) ->
  f a < f b.
Proof.
  intros Hlt Hd Hpos.
  destruct (MVT_cor2 f f' a b Hlt Hd) as (c & Hc & Hin).
  pose proof (Hpos c Hin). nra.
Qed.

(** Two functions with the same derivative grow alike. *)
Lemma same_deriv_same_incr (f g d : R -> R) (a b : R) :
  (forall x, derivable_pt_lim f x (d x)) ->
  (forall x, derivable_pt_lim g x (d x)) ->
  f b - f a = g b - g a.
Proof.
  intros Hf Hg.
  assert (Hz : forall x,
             derivable_pt_lim (fun y => f y - g y) x ((fun _ => 0) x)).
  { intros x. replace 0 with (d x - d x) by ring.
    apply (derivable_pt_lim_minus f g); auto. }
  assert (Hz' : forall x,
             derivable_pt_lim (fun y => - (f y - g y)) x ((fun _ => 0) x)).
  { intros x. replace 0 with (- 0) by ring.
    apply (derivable_pt_lim_opp (fun y => f y - g y)); auto. }
  assert (Hc : forall u v, u <= v -> f u - g u = f v - g v).
  { intros u v Huv. apply Rle_antisym.
    - apply (deriv_nonneg_incr (fun y => f y - g y) (fun _ => 0) u v);
        auto. intros; lra.
    - apply Ropp_le_cancel.
      apply (deriv_nonneg_incr (fun y => - (f y - g y)) (fun _ => 0) u v);
        auto. intros; lra. }
  destruct (Rle_dec a b) as [h | h].
  - pose proof (Hc a b h). lra.
  - pose proof (Hc b a ltac:(lra)). lra.
Qed.

(** *** The Gaussian kernel and its area *)

(** The kernel [exp (- t^2 / 2)]. *)
Definition gauss_kernel (t : R) : R := exp (- (t * t) / 2).

Lemma gauss_kernel_continuity : continuity gauss_kernel.
Proof.
  apply derivable_continuous. unfold gauss_kernel. reg.
Qed.

Lemma gauss_kernel_pos t : 0 < gauss_kernel t.
Proof. apply exp_pos. Qed.

Lemma gauss_kernel_even t : gauss_kernel (- t) = gauss_kernel t.
Proof. unfold gauss_kernel. f_equal. lra. Qed.

(** The signed area of the kernel between [0] and [x]. *)
Definition gauss_area : R -> R := area gauss_kernel gauss_kernel_continuity.

(** [scipy.stats.norm.cdf]: the cumulative distribution function of the
    standard normal law, [1/2 + (integral of exp (- t^2 / 2) from 0 to
    x) / sqrt (2 * PI)]. *)
Definition norm_cdf (x : R) : R := 1 / 2 + gauss_area x / sqrt (2 * PI).

(** The density of the standard normal law. *)
Definition norm_pdf (x : R) : R := gauss_kernel x / sqrt (2 * PI).

Lemma gauss_area_0 : gauss_area 0 = 0.
Proof. apply area_0. Qed.

Lemma gauss_area_deriv x : derivable_pt_lim gauss_area x (gauss_kernel x).
Proof. apply area_deriv. Qed.

Lemma gauss_area_incr x y : x < y -> gauss_area x < gauss_area y.
Proof.
  intros H. apply (deriv_pos_incr gauss_area gauss_kernel); auto.
  - intros c _. apply gauss_area_deriv.
  - intros c _. apply gauss_kernel_pos.
Qed.

(** The kernel is even, so its area is odd. *)
Lemma gauss_area_odd x : gauss_area (- x) = - gauss_area x.
Proof.
  pose proof (same_deriv_same_incr
                (fun y => gauss_area y + gauss_area (- y))
                (fun _ => 0) (fun _ => 0) 0 x) as H.
  cbv beta in H. rewrite Ropp_0, gauss_area_0 in H.
  assert (gauss_area x + gauss_area (- x) - (0 + 0) = 0 - 0); [| lra].
  apply H.
  - intros y.
    replace 0 with (gauss_kernel y + - gauss_kernel (- y))
      by (rewrite gauss_kernel_even; ring).
    apply (derivable_pt_lim_plus gauss_area (mirr_fct gauss_area)).
    + apply gauss_area_deriv.
    + apply derivable_pt_lim_mirr_fwd. rewrite Ropp_involutive.
      apply gauss_area_deriv.
  - intros y. apply derivable_pt_lim_const.
Qed.

Lemma gauss_kernel_le_datan x : gauss_kernel x <= 2 * / (1 + x ^ 2).
Proof.
  unfold gauss_kernel.
  replace (- (x * x) / 2) with (- (x * x / 2)) by field.
  rewrite exp_Ropp.
  pose proof (exp_ineq1_le (x * x / 2)) as E.
  assert (Hx : 0 <= x * x) by nra.
  assert (H1 : / exp (x * x / 2) <= / (1 + x * x / 2)).
  { apply Rinv_le_contravar; lra. }
  assert (H2 : / (1 + x * x / 2) <= 2 * / (1 + x ^ 2)).
  { replace (2 * / (1 + x ^ 2)) with (/ ((1 + x * x) / 2)) by (field; nra).
    apply Rinv_le_contravar; nra. }
  lra.
Qed.

(** The area stays bounded: it is dominated by twice the arctangent. *)
Lemma gauss_area_lt_PI x : gauss_area x < PI.
Proof.
  destruct (Rle_dec 0 x) as [h | h].
  - pose (D := fun y => 2 * atan y - gauss_area y).
    assert (HD : D 0 <= D x).
    { apply (deriv_nonneg_incr D
               (fun y => 2 * / (1 + y ^ 2) - gauss_kernel y)); auto.
      - intros c _.
        apply (derivable_pt_lim_minus (mult_real_fct 2 atan) gauss_area).
        + apply derivable_pt_lim_scal, derivable_pt_lim_atan.
        + apply gauss_area_deriv.
      - intros c _. pose proof (gauss_kernel_le_datan c). lra. }
    unfold D in HD. rewrite atan_0, gauss_area_0 in HD.
    pose proof (atan_bound x). lra.
  - pose proof (gauss_area_incr x 0 ltac:(lra)) as H.
    rewrite gauss_area_0 in H. pose proof PI_RGT_0. lra.
Qed.

Definition gauss_areas (y : R) : Prop := exists x, y = gauss_area x.

Lemma gauss_areas_bound : bound gauss_areas.
Proof.
  exists PI. intros y [x ->]. left. apply gauss_area_lt_PI.
Qed.

Lemma gauss_areas_inhabited : exists y, gauss_areas y.
Proof. exists (gauss_area 0), 0. reflexivity. Qed.

(** Half of the total mass of the kernel: the limit of [gauss_area] at
    infinity, obtained as a least upper bound.  Its value is
    [sqrt (PI / 2)] ([gauss_half_mass_value] below), so that
    [norm_cdf] goes from [0] to [1]. *)
Definition gauss_half_mass : R :=
  proj1_sig (completeness gauss_areas gauss_areas_bound gauss_areas_inhabited).

Lemma gauss_half_mass_ub x : gauss_area x <= gauss_half_mass.
Proof.
  unfold gauss_half_mass.
  destruct (completeness _ _ _) as (m & Hub & Hl). simpl.
  apply Hub. now exists x.
Qed.

Lemma gauss_half_mass_least m :
  (forall x, gauss_area x <= m) -> gauss_half_mass <= m.
Proof.
  intros H. unfold gauss_half_mass.
  destruct (completeness _ _ _) as (h & Hub & Hl). simpl.
  apply Hl. intros y [x ->]. apply H.
Qed.

Lemma gauss_half_mass_pos : 0 < gauss_half_mass.
Proof.
  pose proof (gauss_half_mass_ub 1).
  pose proof (gauss_area_incr 0 1 ltac:(lra)) as H1.
  rewrite gauss_area_0 in H1. lra.
Qed.

(** *** The value of the Gaussian integral *)

(** The integrand [exp (- t^2 (1 + x^2) / 2) / (1 + x^2)] of the
    classical evaluation, with its first two derivatives in [t]. *)
Definition kern (t x : R) : R :=
  exp (- (t * t) * (1 + x * x) / 2) / (1 + x * x).

Definition kern_dt (t x : R) : R :=
  - t * exp (- (t * t) * (1 + x * x) / 2).

Definition kern_dtt (t x : R) : R :=
  ((1 + x * x) * (t * t) - 1) * exp (- (t * t) * (1 + x * x) / 2).

Lemma kern_cont t : continuity (kern t).
Proof.
  apply derivable_continuous. unfold kern. reg. intros x H; nra.
Qed.

Lemma kern_dt_cont t : continuity (kern_dt t).
Proof.
  apply derivable_continuous. unfold kern_dt. reg.
Qed.

Lemma kern_deriv x t :
  derivable_pt_lim (fun s => kern s x) t (kern_dt t x).
Proof.
  assert (Hx : 1 + x * x <> 0) by nra.
  unfold kern, kern_dt.
  assert (pr : derivable_pt
                 (fun s => exp (- (s * s) * (1 + x * x) / 2) / (1 + x * x)) t)
    by (reg; auto).
  apply (derive_pt_eq_1 _ _ _ pr). reg; auto.
  unfold Rdiv. field. exact Hx.
Qed.

Lemma kern_dt_deriv x t :
  derivable_pt_lim (fun s => kern_dt s x) t (kern_dtt t x).
Proof.
  unfold kern_dt, kern_dtt.
  assert (pr : derivable_pt
                 (fun s => - s * exp (- (s * s) * (1 + x * x) / 2)) t) by reg.
  apply (derive_pt_eq_1 _ _ _ pr). reg. unfold Rdiv, comp. field.
Qed.

Lemma kern_dtt_bound x t :
  0 <= x <= 1 -> Rabs (kern_dtt t x) <= 2 * (t * t) + 1.
Proof.
  intros Hx. unfold kern_dtt.
  assert (He : 0 < exp (- (t * t) * (1 + x * x) / 2) <= 1).
  { split; [apply exp_pos |].
    assert (Hu : - (t * t) * (1 + x * x) / 2 <= 0) by nra.
    destruct Hu as [Hlt | Heq].
    - left. apply Rlt_le_trans with (exp 0);
        [now apply exp_increasing | rewrite exp_0; lra].
    - rewrite Heq, exp_0. lra. }
  set (e := exp (- (t * t) * (1 + x * x) / 2)) in *.
  rewrite Rabs_mult, (Rabs_right e) by lra.
  assert (Hq : Rabs ((1 + x * x) * (t * t) - 1) <= 2 * (t * t) + 1).
  { assert (Hxx : 0 <= x * x <= 1) by nra.
    assert (Htt : 0 <= t * t) by nra.
    assert (Hxt : 0 <= (1 - x * x) * (t * t)) by (apply Rmult_le_pos; lra).
    assert (Hxt' : 0 <= (x * x) * (t * t)) by (apply Rmult_le_pos; lra).
    apply Rabs_le. lra. }
  pose proof (Rabs_pos ((1 + x * x) * (t * t) - 1)). nra.
Qed.

(** The remainder of the first-order expansion in [t], uniformly in
    [x]. *)
Lemma kern_taylor x t h :
  0 <= x <= 1 -> Rabs h <= 1 ->
  Rabs (kern (t + h) x - kern t x - h * kern_dt t x)
  <= (2 * ((Rabs t + 1) * (Rabs t + 1)) + 1) * (h * h).
Proof.
  intros Hx Hh.
  set (C := 2 * ((Rabs t + 1) * (Rabs t + 1)) + 1).
  assert (HC : forall s, Rmin t (t + h) <= s <= Rmax t (t + h) ->
                         Rabs (kern_dtt s x) <= C).
  { intros s Hs. eapply Rle_trans; [apply kern_dtt_bound; exact Hx |].
    unfold C. assert (Rabs s <= Rabs t + 1).
    { apply Rabs_le. revert Hs Hh. unfold Rmin, Rmax.
      destruct (Rle_dec t (t + h)); unfold Rabs;
        destruct (Rcase_abs t); destruct (Rcase_abs h); intros; lra. }
    pose proof (Rabs_pos s). rewrite <- (Rabs_right (s * s)) by nra.
    rewrite Rabs_mult. nra. }
  destruct (MVT_abs (fun s => kern s x - s * kern_dt t x)
              (fun s => kern_dt s x - kern_dt t x) t (t + h))
    as (c & Hc & Hcin).
  { intros s _.
    apply (derivable_pt_lim_minus (fun s => kern s x)
             (fun s => s * kern_dt t x)).
    - apply kern_deriv.
    - generalize (kern_dt t x). intros k0.
      assert (pr : derivable_pt (fun s => s * k0) s) by reg.
      apply (derive_pt_eq_1 _ _ _ pr). reg. }
  destruct (MVT_abs (fun s => kern_dt s x) (fun s => kern_dtt s x) t c)
    as (d & Hd & Hdin).
  { intros s _. apply kern_dt_deriv. }
  replace (kern (t + h) x - kern t x - h * kern_dt t x)
    with (kern (t + h) x - (t + h) * kern_dt t x
          - (kern t x - t * kern_dt t x))
    by ring.
  rewrite Hc, Hd. replace (t + h - t) with h by ring.
  assert (Hcd : Rabs (c - t) <= Rabs h).
  { apply Rabs_le. revert Hcin. unfold Rmin, Rmax.
    destruct (Rle_dec t (t + h)); unfold Rabs; destruct (Rcase_abs h);
      intros; lra. }
  assert (Hdd : Rmin t (t + h) <= d <= Rmax t (t + h)).
  { revert Hcin Hdin. unfold Rmin, Rmax.
    destruct (Rle_dec t (t + h)); destruct (Rle_dec t c); intros; lra. }
  pose proof (HC d Hdd) as HCd.
  pose proof (Rabs_pos (kern_dtt d x)). pose proof (Rabs_pos (c - t)).
  pose proof (Rabs_pos h).
  replace (h * h) with (Rabs h * Rabs h).
  2:{ rewrite <- Rabs_mult. apply Rabs_right. nra. }
  assert (Rabs (kern_dtt d x) * Rabs (c - t) <= C * Rabs h).
  { apply Rmult_le_compat; lra. }
  nra.
Qed.

(** The integral of [kern t] over [[0, 1]] and the integral of its
    derivative in [t]. *)
Definition kern_area (t : R) : R := area (kern t) (kern_cont t) 1.
Definition kern_dt_area (t : R) : R := area (kern_dt t) (kern_dt_cont t) 1.

Lemma kern_area_taylor t h :
  Rabs h <= 1 ->
  Rabs (kern_area (t + h) - kern_area t - h * kern_dt_area t)
  <= (2 * ((Rabs t + 1) * (Rabs t + 1)) + 1) * (h * h).
Proof.
  intros Hh. unfold kern_area, kern_dt_area, area.
  set (p1 := integrable (kern (t + h)) (kern_cont (t + h)) 0 1).
  set (p2 := integrable (kern t) (kern_cont t) 0 1).
  set (p3 := integrable (kern_dt t) (kern_dt_cont t) 0 1).
  pose (p12 := RiemannInt_P10 (-1) p1 p2).
  pose (p123 := RiemannInt_P10 (- h) p12 p3).
  replace (RiemannInt p1 - RiemannInt p2 - h * RiemannInt p3)
    with (RiemannInt p123).
  2:{ unfold p123. rewrite (RiemannInt_P13 p12 p3).
      unfold p12. rewrite (RiemannInt_P13 p1 p2). ring. }
  apply integral_abs_bound. intros x Hx.
  replace (kern (t + h) x + -1 * kern t x + - h * kern_dt t x)
    with (kern (t + h) x - kern t x - h * kern_dt t x) by ring.
  apply kern_taylor; [lra | exact Hh].
Qed.

(** Differentiation under the integral sign. *)
Lemma kern_area_deriv t : derivable_pt_lim kern_area t (kern_dt_area t).
Proof.
  set (C := 2 * ((Rabs t + 1) * (Rabs t + 1)) + 1).
  assert (HC : 1 <= C) by (unfold C; pose proof (Rabs_pos t); nra).
  intros eps Heps.
  assert (Hd : 0 < Rmin 1 (eps / (2 * C))).
  { apply Rmin_glb_lt; [lra |]. apply Rdiv_lt_0_compat; lra. }
  exists (mkposreal _ Hd). cbn [pos]. intros h Hh0 Hh.
  assert (Hh1 : Rabs h <= 1).
  { left. eapply Rlt_le_trans; [exact Hh | apply Rmin_l]. }
  assert (Hh2 : Rabs h < eps / (2 * C)).
  { eapply Rlt_le_trans; [exact Hh | apply Rmin_r]. }
  pose proof (kern_area_taylor t h Hh1) as HT. fold C in HT.
  replace ((kern_area (t + h) - kern_area t) / h - kern_dt_area t)
    with ((kern_area (t + h) - kern_area t - h * kern_dt_area t) / h)
    by (field; exact Hh0).
  unfold Rdiv. rewrite Rabs_mult, Rabs_inv.
  assert (Hah : 0 < Rabs h) by (apply Rabs_pos_lt; exact Hh0).
  apply (Rmult_lt_reg_r (Rabs h)); [exact Hah |].
  rewrite Rmult_assoc, Rinv_l, Rmult_1_r by lra.
  replace (h * h) with (Rabs h * Rabs h) in HT.
  2:{ rewrite <- Rabs_mult. apply Rabs_right. nra. }
  assert (C * Rabs h < eps).
  { apply (Rmult_lt_reg_r (/ (2 * C))); [apply Rinv_0_lt_compat; lra |].
    replace (C * Rabs h * / (2 * C)) with (Rabs h / 2) by (field; lra).
    unfold Rdiv in Hh2. lra. }
  nra.
Qed.

(** The kernel stretched by [t]: its area over [[0, 1]] is the area of
    the kernel over [[0, t]]. *)
Definition stretched (t x : R) : R := t * gauss_kernel (t * x).

Lemma stretched_cont t : continuity (stretched t).
Proof.
  apply derivable_continuous. unfold stretched, gauss_kernel. reg.
Qed.

Lemma stretched_area t :
  area (stretched t) (stretched_cont t) 1 = gauss_area t.
Proof.
  pose proof (same_deriv_same_incr
                (area (stretched t) (stretched_cont t))
                (fun s => gauss_area (t * s))
                (stretched t) 0 1) as H.
  rewrite area_0, Rmult_0_r, Rmult_1_r, gauss_area_0 in H.
  rewrite !Rminus_0_r in H. apply H.
  - intros x. apply area_deriv.
  - intros x. unfold stretched.
    replace (t * gauss_kernel (t * x)) with (gauss_kernel (t * x) * t)
      by ring.
    apply (derivable_pt_lim_comp (fun s => t * s) gauss_area).
    + assert (pr : derivable_pt (fun s => t * s) x) by reg.
      apply (derive_pt_eq_1 _ _ _ pr). reg.
    + apply gauss_area_deriv.
Qed.

Lemma kern_dt_stretched t x :
  kern_dt t x = 0 + - gauss_kernel t * stretched t x.
Proof.
  unfold kern_dt, stretched, gauss_kernel.
  replace (- (t * t) * (1 + x * x) / 2)
    with (- (t * t) / 2 + - (t * x * (t * x)) / 2) by field.
  rewrite exp_plus. ring.
Qed.

Lemma kern_dt_area_eq t : kern_dt_area t = - gauss_kernel t * gauss_area t.
Proof.
  unfold kern_dt_area, area. rewrite <- stretched_area. unfold area.
  assert (H01 : 0 <= 1) by lra.
  pose (Hz := constant_integrable 0 0 1 H01).
  pose (pr := RiemannInt_P10 (- gauss_kernel t) Hz
                (integrable (stretched t) (stretched_cont t) 0 1)).
  rewrite (RiemannInt_P18 (integrable (kern_dt t) (kern_dt_cont t) 0 1) pr).
  - unfold pr.
    rewrite (RiemannInt_P13 Hz
               (integrable (stretched t) (stretched_cont t) 0 1)).
    rewrite RiemannInt_P15. ring.
  - lra.
  - intros x _. apply kern_dt_stretched.
Qed.

Lemma kern_area_0 : kern_area 0 = PI / 4.
Proof.
  unfold kern_area.
  pose proof (same_deriv_same_incr (area (kern 0) (kern_cont 0)) atan
                (kern 0) 0 1) as H.
  rewrite area_0, atan_0, atan_1, !Rminus_0_r in H. apply H.
  - intros x. apply area_deriv.
  - intros x. unfold kern.
    replace (exp (- (0 * 0) * (1 + x * x) / 2) / (1 + x * x))
      with (/ (1 + x ^ 2)).
    + apply derivable_pt_lim_atan.
    + replace (- (0 * 0) * (1 + x * x) / 2) with 0 by field.
      rewrite exp_0. field. nra.
Qed.

Lemma kern_area_bounds t : 0 <= kern_area t <= gauss_kernel t.
Proof.
  unfold kern_area. split.
  - replace 0 with (0 * 1) by ring. apply area_ge_bound; [lra |].
    intros x _. unfold kern. apply Rmult_le_pos; [left; apply exp_pos |].
    left. apply Rinv_0_lt_compat. nra.
  - replace (gauss_kernel t) with (gauss_kernel t * 1) by ring.
    apply area_le_bound; [lra |].
    intros x _. unfold kern, gauss_kernel.
    assert (Hx : 1 <= 1 + x * x) by nra.
    assert (He : exp (- (t * t) * (1 + x * x) / 2) <= exp (- (t * t) / 2)).
    { assert (Hu : - (t * t) * (1 + x * x) / 2 <= - (t * t) / 2) by nra.
      destruct Hu as [Hu | ->]; [left; now apply exp_increasing | lra]. }
    pose proof (exp_pos (- (t * t) * (1 + x * x) / 2)) as Hp.
    assert (Hi : / (1 + x * x) <= 1).
    { rewrite <- Rinv_1. apply Rinv_le_contravar; lra. }
    assert (Hi0 : 0 < / (1 + x * x)) by (apply Rinv_0_lt_compat; lra).
    unfold Rdiv. nra.
Qed.

(** The square of the area and twice the parametric integral add up to
    [PI / 2] for every [t]. *)
Lemma gauss_area_sqr t :
  gauss_area t * gauss_area t + 2 * kern_area t = PI / 2.
Proof.
  pose proof (same_deriv_same_incr
                (fun s => gauss_area s * gauss_area s + 2 * kern_area s)
                (fun _ => 0) (fun _ => 0) 0 t) as H.
  cbv beta in H. rewrite gauss_area_0, kern_area_0 in H.
  assert (gauss_area t * gauss_area t + 2 * kern_area t
          - (0 * 0 + 2 * (PI / 4)) = 0 - 0);
    [| lra].
  apply H.
  - intros x.
    replace 0
      with ((gauss_kernel x * gauss_area x + gauss_area x * gauss_kernel x)
            + 2 * kern_dt_area x) by (rewrite kern_dt_area_eq; ring).
    apply (derivable_pt_lim_plus (fun s => gauss_area s * gauss_area s)
             (fun s => 2 * kern_area s)).
    + apply (derivable_pt_lim_mult gauss_area gauss_area);
        apply gauss_area_deriv.
    + apply (derivable_pt_lim_scal kern_area 2). apply kern_area_deriv.
  - intros x. apply derivable_pt_lim_const.
Qed.

Lemma gauss_half_mass_sqr : gauss_half_mass * gauss_half_mass = PI / 2.
Proof.
  pose proof gauss_half_mass_pos as Hp. pose proof PI_RGT_0 as Hpi.
  apply Rle_antisym.
  - (* every area is at most [sqrt (PI / 2)] *)
    assert (Hs : gauss_half_mass <= sqrt (PI / 2)).
    { apply gauss_half_mass_least. intros x.
      destruct (Rle_dec x 0) as [h | h].
      - apply Rle_trans with 0; [| apply sqrt_pos].
        destruct h as [h | ->]; [| rewrite gauss_area_0; lra].
        pose proof (gauss_area_incr x 0 h) as H.
        rewrite gauss_area_0 in H. lra.
      - assert (H0 : 0 < gauss_area x).
        { rewrite <- gauss_area_0. apply gauss_area_incr. lra. }
        pose proof (gauss_area_sqr x) as Hq.
        pose proof (kern_area_bounds x) as [Hk _].
        rewrite <- (sqrt_square (gauss_area x)) by lra.
        apply sqrt_le_1; nra. }
    pose proof (sqrt_sqrt (PI / 2) ltac:(lra)) as Hq.
    pose proof (sqrt_pos (PI / 2)). nra.
  - (* the areas come as close to [sqrt (PI / 2)] as wanted *)
    destruct (Rle_dec (PI / 2) (gauss_half_mass * gauss_half_mass))
      as [h | h]; [exact h | exfalso].
    set (eps := PI / 2 - gauss_half_mass * gauss_half_mass).
    assert (Heps : 0 < eps) by (unfold eps; lra).
    set (t := 4 / eps).
    assert (Ht : 0 < t) by (apply Rdiv_lt_0_compat; lra).
    pose proof (gauss_area_sqr t) as Hq.
    pose proof (kern_area_bounds t) as [_ Hk].
    pose proof (gauss_kernel_le_datan t) as Hg.
    assert (H0 : 0 < gauss_area t).
    { rewrite <- gauss_area_0. apply gauss_area_incr. lra. }
    pose proof (gauss_half_mass_ub t) as Hub.
    assert (Hsq : gauss_area t * gauss_area t
                  <= gauss_half_mass * gauss_half_mass) by nra.
    assert (Hinv : 4 * / (1 + t ^ 2) < eps).
    { apply (Rmult_lt_reg_r (1 + t ^ 2)); [nra |].
      rewrite Rmult_assoc, Rinv_l by nra.
      assert (Het : eps * t = 4) by (unfold t; field; lra).
      nra. }
    unfold eps in Hinv. lra.
Qed.

(** The half mass is [sqrt (PI / 2)]: the whole mass of the kernel is
    [sqrt (2 * PI)]. *)
Lemma gauss_half_mass_value : gauss_half_mass = sqrt (PI / 2).
Proof.
  pose proof gauss_half_mass_pos as Hp. pose proof PI_RGT_0 as Hpi.
  rewrite <- gauss_half_mass_sqr. symmetry. apply sqrt_square. lra.
Qed.

Lemma gauss_mass_value : 2 * gauss_half_mass = sqrt (2 * PI).
Proof.
  pose proof gauss_half_mass_pos as Hp.
  replace (2 * PI) with ((2 * gauss_half_mass) * (2 * gauss_half_mass))
    by (pose proof gauss_half_mass_sqr; nra).
  symmetry. apply sqrt_square. lra.
Qed.

(** *** The distribution function *)

(** The distribution function and the density in terms of the mass of
    the kernel. *)
Lemma norm_cdf_mass x :
  norm_cdf x = (gauss_half_mass + gauss_area x) / (2 * gauss_half_mass).
Proof.
  unfold norm_cdf. rewrite <- gauss_mass_value.
  pose proof gauss_half_mass_pos. field. lra.
Qed.

Lemma norm_pdf_mass x : norm_pdf x = gauss_kernel x / (2 * gauss_half_mass).
Proof.
  unfold norm_pdf. rewrite gauss_mass_value. reflexivity.
Qed.

Lemma norm_cdf_sym x : norm_cdf (- x) = 1 - norm_cdf x.
Proof.
  rewrite !norm_cdf_mass, gauss_area_odd.
  pose proof gauss_half_mass_pos. field. lra.
Qed.

Lemma norm_cdf_0 : norm_cdf 0 = 1 / 2.
Proof.
  rewrite norm_cdf_mass, gauss_area_0. pose proof gauss_half_mass_pos.
  field. lra.
Qed.

Lemma norm_cdf_nonneg x : 0 <= norm_cdf x.
Proof.
  rewrite norm_cdf_mass. pose proof gauss_half_mass_pos as Hp.
  pose proof (gauss_half_mass_ub (- x)) as H. rewrite gauss_area_odd in H.
  apply Rmult_le_pos; [lra |]. left. apply Rinv_0_lt_compat. lra.
Qed.

Lemma norm_cdf_le_1 x : norm_cdf x <= 1.
Proof.
  pose proof (norm_cdf_nonneg (- x)) as H. rewrite norm_cdf_sym in H. lra.
Qed.

Lemma norm_cdf_incr x y : x < y -> norm_cdf x < norm_cdf y.
Proof.
  intros H. rewrite !norm_cdf_mass. pose proof gauss_half_mass_pos as Hp.
  pose proof (gauss_area_incr x y H).
  apply Rmult_lt_compat_r; [apply Rinv_0_lt_compat|]; lra.
Qed.

Lemma norm_cdf_mono x y : x <= y -> norm_cdf x <= norm_cdf y.
Proof.
  intros [H | ->]; [left; now apply norm_cdf_incr | right; reflexivity].
Qed.

(** The distribution function climbs to one: its values come as close
    to [1] as wanted. *)
Lemma norm_cdf_sup (eps : R) : 0 < eps -> exists x, 1 - eps < norm_cdf x.
Proof.
  intros He. pose proof gauss_half_mass_pos as Hp.
  set (m := gauss_half_mass - 2 * gauss_half_mass * eps).
  destruct (Rle_dec gauss_half_mass m) as [Hm | Hm].
  { unfold m in Hm. nra. }
  assert (Hex : exists x, m < gauss_area x).
  { destruct (Classical_Prop.classic (exists x, m < gauss_area x)) as [E | E];
      [exact E |].
    exfalso. apply Hm. apply gauss_half_mass_least. intros x.
    destruct (Rle_dec (gauss_area x) m) as [L | L]; [exact L |].
    exfalso. apply E. exists x. lra. }
  destruct Hex as [x Hx]. exists x. rewrite norm_cdf_mass.
  apply (Rmult_lt_reg_r (2 * gauss_half_mass)); [lra |].
  unfold m in Hx. field_simplify; lra.
Qed.

Lemma norm_pdf_pos x : 0 < norm_pdf x.
Proof.
  rewrite norm_pdf_mass. pose proof gauss_half_mass_pos.
  pose proof (gauss_kernel_pos x).
  apply Rmult_lt_0_compat; [lra |]. apply Rinv_0_lt_compat. lra.
Qed.

Lemma norm_cdf_deriv x : derivable_pt_lim norm_cdf x (norm_pdf x).
Proof.
  pose proof gauss_half_mass_pos as Hp. rewrite norm_pdf_mass.
  apply (derivable_pt_lim_locally_ext
           (fun y => / (2 * gauss_half_mass) * (gauss_half_mass + gauss_area y))
           norm_cdf x (x - 1) (x + 1)); [lra | |].
  - intros z _. rewrite norm_cdf_mass. field. lra.
  - replace (gauss_kernel x / (2 * gauss_half_mass))
      with (/ (2 * gauss_half_mass) * (0 + gauss_kernel x)) by (field; lra).
    apply (derivable_pt_lim_scal (fun y => gauss_half_mass + gauss_area y)).
    apply (derivable_pt_lim_plus (fun _ => gauss_half_mass) gauss_area).
    + apply derivable_pt_lim_const.
    + apply gauss_area_deriv.
Qed.

Lemma norm_cdf_shift_deriv (v x : R) :
  derivable_pt_lim (fun t => norm_cdf (t - v)) x (norm_pdf (x - v)).
Proof.
  replace (norm_pdf (x - v)) with (norm_pdf (x - v) * (1 - 0)) by ring.
  apply (derivable_pt_lim_comp (fun t => t - v) norm_cdf).
  - apply (derivable_pt_lim_minus id (fun _ => v)).
    + apply derivable_pt_lim_id.
    + apply derivable_pt_lim_const.
  - apply norm_cdf_deriv.
Qed.

(** Shifting the density by [v] multiplies it by an exponential. *)
Lemma norm_pdf_shift (v t : R) :
  norm_pdf (t - v) = norm_pdf t * exp (t * v - v * v / 2).
Proof.
  rewrite !norm_pdf_mass. unfold gauss_kernel.
  replace (- ((t - v) * (t - v)) / 2)
    with (- (t * t) / 2 + (t * v - v * v / 2)) by field.
  rewrite exp_plus. pose proof gauss_half_mass_pos. field. lra.
Qed.

End Gauss.
Export Gauss.

(** ** Python objects, exceptions and effects *)

Inductive value : Type :=
| VNone
| VBool (b : bool)
| VInt (z : Z)
| VFloat (x : R)
| VStr (s : string).

Inductive exn : Type :=
| TypeError
| ZeroDivisionError
| KeyError
| IndexError.

Inductive result (A : Type) : Type :=
| Ok (a : A)
| Raise (e : exn).
Arguments Ok {A} a.
Arguments Raise {A} e.

Class Monad (M : Type -> Type) : Type := {
  ret : forall {A : Type}, A -> M A;
  bind : forall {A B : Type}, M A -> (A -> M B) -> M B
}.

Declare Scope py_scope.
Delimit Scope py_scope with py.
Notation "x <- c ;; k" := (bind c (fun x => k))
  (at level 61, c at next level, right associativity) : py_scope.
Notation "c ;; k" := (bind c (fun _ => k))
  (at level 61, right associativity) : py_scope.
Local Open Scope py_scope.

#[export] Instance result_monad : Monad result := {
  ret := fun A a => Ok a;
  bind := fun A B r k => match r with Ok a => k a | Raise e => Raise e end
}.

(** The number a Python object stands for in arithmetic, if any: [bool]
    is a subtype of [int], [None] and [str] are not numbers. *)
Definition as_real (v : value) : option R :=
  match v with
  | VBool true => Some 1
  | VBool false => Some 0
  | VInt z => Some (IZR z)
  | VFloat x => Some x
  | VNone | VStr _ => None
  end.

(** [a / b] on Python numbers. *)
Definition py_truediv (a b : value) : result R :=
  match as_real a, as_real b with
  | Some x, Some y =>
      if Req_dec_T y 0 then Raise ZeroDivisionError else Ok (x / y)
  | _, _ => Raise TypeError
  end.

(** [a + b] with a number on the left. *)
Definition py_add (a : R) (b : value) : result R :=
  match as_real b with
  | Some y => Ok (a + y)
  | None => Raise TypeError
  end.

(** [a ** n] for a literal exponent [n]. *)
Definition py_pow (a : value) (n : nat) : result R :=
  match as_real a with
  | Some x => Ok (x ^ n)
  | None => Raise TypeError
  end.

(** [a * b] with a [numpy.float64] on the right. *)
Definition py_mul (a : value) (b : R) : result R :=
  match as_real a with
  | Some x => Ok (x * b)
  | None => Raise TypeError
  end.

(** [v is True] and [v is False]: identity with the two [bool] objects. *)
Definition is_True (v : value) : bool :=
  match v with VBool true => true | _ => false end.

Definition is_False (v : value) : bool :=
  match v with VBool false => true | _ => false end.

Definition np_log (x : R) : R := ln x.
Definition np_sqrt (x : R) : R := sqrt x.
Definition np_exp (x : R) : R := exp x.
Definition np_divide (x y : R) : R := x / y.

(** A [dict] with [str] keys, in insertion order. *)
Definition dict (A : Type) : Type := list (string * A).

(** [d.get(k)]: [None] when the key is absent. *)
Fixpoint dict_get {A : Type} (d : dict A) (k : string) : option A :=
  match d with
  | [] => None
  | (k', v) :: d' => if String.eqb k k' then Some v else dict_get d' k
  end.

(** [d[k]]. *)
Definition dict_getitem {A : Type} (d : dict A) (k : string) : result A :=
  match dict_get d k with
  | Some v => Ok v
  | None => Raise KeyError
  end.

(** [x[i]] on what [d.get(k)] returned: a list, or [None]. *)
Definition py_index (x : option (list value)) (i : nat) : result value :=
  match x with
  | None => Raise TypeError
  | Some l =>
      match nth_error l i with
      | Some v => Ok v
      | None => Raise IndexError
      end
  end.

(** ** The time units *)

Definition DAYS_IN_YEAR : value := VInt 365.
Definition WEEKS_IN_YEAR : value := VFloat (52 + 1 / 52).
Definition VALID_TIME_UNITS : dict value :=
  [("d"%string, DAYS_IN_YEAR); ("w"%string, WEEKS_IN_YEAR);
   ("y"%string, VInt 1)].

(** ** The class [Option] *)

(** The attributes of an instance.  [time_to_expiration] holds the
    quotient computed by the constructor, a [float];
    [rfree_continuous] the [numpy.float64] returned by [np.log]; the
    others hold the objects the caller gave. *)
Record Option : Type := {
  is_call : value;
  underlying_price : value;
  strike : value;
  time_unit : value;
  time_to_expiration : R;
  rfree_discrete : value;
  volatility : value;
  rfree_continuous : R
}.

(** The arguments of [Option(...)]; each one defaults to [None]. *)
Record init_args : Type := {
  arg_is_call : value;
  arg_underlying_price : value;
  arg_time_unit : value;
  arg_time_to_expiration : value;
  arg_strike : value;
  arg_rfree_discrete : value;
  arg_volatility : value;
  arg_option_parameters : option (dict (list value))
}.

Definition __init__ (a : init_args) : result Option :=
  match arg_option_parameters a with
  | Some option_parameters =>
      c <- py_index (dict_get option_parameters "is_call") 1 ;;
      s <- py_index (dict_get option_parameters "underlying_price") 1 ;;
      k <- py_index (dict_get option_parameters "strike") 1 ;;
      u <- py_index (dict_get option_parameters "time_unit") 1 ;;
      t0 <- py_index (dict_get option_parameters "time_to_expiration") 1 ;;
      t <- py_truediv t0 u ;;
      r <- py_index (dict_get option_parameters "rfree_discrete") 1 ;;
      v <- py_index (dict_get option_parameters "volatility") 1 ;;
      r1 <- py_add 1 r ;;
      ret {| is_call := c; underlying_price := s; strike := k;
             time_unit := u; time_to_expiration := t;
             rfree_discrete := r; volatility := v;
             rfree_continuous := np_log r1 |}
  | None =>
      t <- py_truediv (arg_time_to_expiration a) (arg_time_unit a) ;;
      r1 <- py_add 1 (arg_rfree_discrete a) ;;
      ret {| is_call := arg_is_call a;
             underlying_price := arg_underlying_price a;
             strike := arg_strike a;
             time_unit := arg_time_unit a;
             time_to_expiration := t;
             rfree_discrete := arg_rfree_discrete a;
             volatility := arg_volatility a;
             rfree_continuous := np_log r1 |}
  end.

(** What a method call can see and change: the instance it is called on
    and the standard output. *)
Record world : Type := {
  self : Option;
  stdout : list string
}.

Definition method (A : Type) : Type := world -> result A * world.

#[export] Instance method_monad : Monad method := {
  ret := fun A a w => (Ok a, w);
  bind := fun A B m k w =>
    match m w with
    | (Ok a, w') => k a w'
    | (Raise e, w') => (Raise e, w')
    end
}.

(** [self.f] *)
Definition attr {A : Type} (f : Option -> A) : method A :=
  fun w => (Ok (f (self w)), w).

(** An operation that may raise, performed inside a method. *)
Definition lift {A : Type} (r : result A) : method A :=
  fun w => (r, w).

Definition print (s : string) : method unit :=
  fun w => (Ok tt, {| self := self w; stdout := stdout w ++ [s] |}).

Definition pricer_BS : method value :=
  s <- attr underlying_price ;;
  k <- attr strike ;;
  q <- lift (py_truediv s k) ;;
  t <- attr time_to_expiration ;;
  r <- attr rfree_continuous ;;
  v <- attr volatility ;;
  v2 <- lift (py_pow v 2) ;;
  v' <- attr volatility ;;
  t' <- attr time_to_expiration ;;
  den <- lift (py_mul v' (np_sqrt t')) ;;
  let d1 := (np_log q + t * (r + np_divide v2 2)) / den in
  v'' <- attr volatility ;;
  t'' <- attr time_to_expiration ;;
  sd <- lift (py_mul v'' (np_sqrt t'')) ;;
  let d2 := d1 - sd in
  c <- attr is_call ;;
  if is_True c then
    s1 <- attr underlying_price ;;
    a <- lift (py_mul s1 (norm_cdf d1)) ;;
    k1 <- attr strike ;;
    r1 <- attr rfree_continuous ;;
    t1 <- attr time_to_expiration ;;
    b <- lift (py_mul k1 (np_exp (- r1 * t1))) ;;
    let call_price := a - b * norm_cdf d2 in
    ret (VFloat call_price)
  else
    c' <- attr is_call ;;
    if is_False c' then
      k1 <- attr strike ;;
      r1 <- attr rfree_continuous ;;
      t1 <- attr time_to_expiration ;;
      a <- lift (py_mul k1 (np_exp (- r1 * t1))) ;;
      s1 <- attr underlying_price ;;
      b <- lift (py_mul s1 (norm_cdf d1)) ;;
      let put_price := a * norm_cdf (- d2) - b in
      ret (VFloat put_price)
    else
      print "Error: is_call should be either True or False" ;;
      ret VNone.

(** [Option(...).pricer_BS()] from a fresh output: construction, then
    pricing. *)
Definition call_on (o : Option) : result value * world :=
  pricer_BS {| self := o; stdout := [] |}.

Definition price_of (a : init_args) : result value :=
  match __init__ a with
  | Ok o => fst (call_on o)
  | Raise e => Raise e
  end.

(** ** The closed form of the specification *)

(** The Black-Scholes quantities as the specification writes them, over
    the numbers [S] (underlying price), [K] (strike), [T] (time to
    expiration in years), [r] (continuous risk-free rate) and [sigma]
    (volatility). *)
Definition spec_d1 (S K T r sigma : R) : R :=
  (ln (S / K) + T * (r + sigma ^ 2 / 2)) / (sigma * sqrt T).

Definition spec_d2 (S K T r sigma : R) : R :=
  spec_d1 S K T r sigma - sigma * sqrt T.

Definition spec_price (isCall : bool) (S K T r sigma : R) : R :=
  if isCall then
    S * norm_cdf (spec_d1 S K T r sigma)
    - K * exp (- r * T) * norm_cdf (spec_d2 S K T r sigma)
  else
    K * exp (- r * T) * norm_cdf (- spec_d2 S K T r sigma)
    - S * norm_cdf (spec_d1 S K T r sigma).

(** The message of the last branch of [pricer_BS]. *)
Definition is_call_message : string :=
  "Error: is_call should be either True or False".

(** ** Inputs, contracts and auxiliary quantities of the statements *)

(** For a spot [S], a discounted strike [K'] and a total volatility [v]:
    the value of exercising above the threshold [d], and the threshold
    at which that value is the largest (the Black-Scholes [d1]). *)
Definition threshold_value (S K' v d : R) : R :=
  S * norm_cdf d - K' * norm_cdf (d - v).

Definition best_threshold (S K' v : R) : R :=
  (ln (S / K') + v * v / 2) / v.

(** The at-the-money contract of the specification's scenario: one year,
    5% discrete rate, 20% volatility. *)
Definition scenario (call : bool) : Option :=
  {| is_call := VBool call;
     underlying_price := VFloat 100;
     strike := VFloat 100;
     time_unit := VInt 1;
     time_to_expiration := 1;
     rfree_discrete := VFloat 0.05;
     volatility := VFloat 0.2;
     rfree_continuous := ln (1 + 0.05) |}.

(** [Option(is_call=c, underlying_price=s, time_unit=u,
    time_to_expiration=t, strike=k, rfree_discrete=r, volatility=v)]:
    the call by keywords. *)
Definition keywords (c s u t k r v : value) : init_args :=
  {| arg_is_call := c; arg_underlying_price := s; arg_time_unit := u;
     arg_time_to_expiration := t; arg_strike := k;
     arg_rfree_discrete := r; arg_volatility := v;
     arg_option_parameters := None |}.

(** [Option(option_parameters=d)]: the call [main_loop] makes. *)
Definition parameters (d : dict (list value)) : init_args :=
  {| arg_is_call := VNone; arg_underlying_price := VNone;
     arg_time_unit := VNone; arg_time_to_expiration := VNone;
     arg_strike := VNone; arg_rfree_discrete := VNone;
     arg_volatility := VNone; arg_option_parameters := Some d |}.

(** The dictionary [parameters_input] returns once the seven prompts
    have been answered: each key holds its label and the value read. *)
Definition prompted (s k u t v r c : value) : dict (list value) :=
  [("underlying_price"%string, [VStr "underlying asset price"; s]);
   ("strike"%string, [VStr "strike (price of exercise)"; k]);
   ("time_unit"%string, [VStr "time frame"; u]);
   ("time_to_expiration"%string, [VStr "time to expiration"; t]);
   ("volatility"%string, [VStr "volatility"; v]);
   ("rfree_discrete"%string, [VStr "risk-free rate (discrete)"; r]);
   ("is_call"%string,
    [VStr "whether the option is a call (C)                                  or a put (P) ";
     c])].

(** What the caller gave for one parameter: the entry of the dictionary
    when there is one, the keyword otherwise. *)
Definition given (a : init_args) (key : string) (kw : init_args -> value)
  : result value :=
  match arg_option_parameters a with
  | Some d => py_index (dict_get d key) 1
  | None => Ok (kw a)
  end.

(** Thirty days to expiration, by keywords, with the divisor of the
    day unit. *)
Definition thirty_days_args : init_args :=
  keywords (VBool true) (VFloat 100) DAYS_IN_YEAR (VFloat 30)
    (VFloat 100) (VFloat 0.05) (VFloat 0.2).

Definition thirty_days : Option :=
  {| is_call := VBool true; underlying_price := VFloat 100;
     strike := VFloat 100; time_unit := DAYS_IN_YEAR;
     time_to_expiration := 30 / 365; rfree_discrete := VFloat 0.05;
     volatility := VFloat 0.2; rfree_continuous := ln (1 + 0.05) |}.



(** The contract [o] with another underlying price, all else equal. *)
Definition with_underlying_price (o : Option) (s : value) : Option :=
  {| is_call := is_call o; underlying_price := s; strike := strike o;
     time_unit := time_unit o; time_to_expiration := time_to_expiration o;
     rfree_discrete := rfree_discrete o; volatility := volatility o;
     rfree_continuous := rfree_continuous o |}.

(** The contract [o] with another strike, all else equal. *)
Definition with_strike (o : Option) (k : value) : Option :=
  {| is_call := is_call o; underlying_price := underlying_price o;
     strike := k; time_unit := time_unit o;
     time_to_expiration := time_to_expiration o;
     rfree_discrete := rfree_discrete o; volatility := volatility o;
     rfree_continuous := rfree_continuous o |}.

(** The contract [o] with another volatility, all else equal. *)
Definition with_volatility (o : Option) (v : value) : Option :=
  {| is_call := is_call o; underlying_price := underlying_price o;
     strike := strike o; time_unit := time_unit o;
     time_to_expiration := time_to_expiration o;
     rfree_discrete := rfree_discrete o; volatility := v;
     rfree_continuous := rfree_continuous o |}.

(** ** The interactive front end *)

(** The functions of [main.py] around the class: [boot_menu],
    [is_call_input], [time_unit_input], [parameters_input] and
    [main_loop].  They run in the [io] monad over a [console]: [input]
    takes the next line the user types, [print] and the prompts of
    [input] append to the screen.  A [while] loop is unrolled [fuel]
    times at most: a run that is [OutOfFuel] for every [fuel] is a run
    that does not end. *)

(** What the program writes: a line written by [print], or the prompt
    of a call of [input] (written without a line break). *)
Inductive event : Type :=
| Printed (s : string)
| Prompted (s : string).

(** The terminal: the lines the user is still to type, and what has been
    written so far. *)
Record console : Type := {
  stdin : list string;
  screen : list event
}.

(** What ends a run of the front end before it returns: [input] finds
    no line left, or an exception of the pricing core is not caught. *)
Inductive io_exn : Type :=
| EOFError
| Uncaught (e : exn).

(** A loop is unrolled [fuel] times at most; [OutOfFuel] says that it
    was still running then. *)
Inductive outcome (A : Type) : Type :=
| Done (a : A)
| Failed (e : io_exn)
| OutOfFuel.
Arguments Done {A} a.
Arguments Failed {A} e.
Arguments OutOfFuel {A}.

Definition io (A : Type) : Type := console -> outcome A * console.

#[export] Instance io_monad : Monad io := {
  ret := fun A a c => (Done a, c);
  bind := fun A B m k c =>
    match m c with
    | (Done a, c') => k a c'
    | (Failed e, c') => (Failed e, c')
    | (OutOfFuel, c') => (OutOfFuel, c')
    end
}.

Definition out_of_fuel {A : Type} : io A := fun c => (OutOfFuel, c).

(** An operation of the core that may raise, performed by the front
    end, which catches nothing of it. *)
Definition raise_from {A : Type} (r : result A) : io A :=
  fun c => match r with
           | Ok a => (Done a, c)
           | Raise e => (Failed (Uncaught e), c)
           end.

(** [print(s)] *)
Definition io_print (s : string) : io unit :=
  fun c => (Done tt, {| stdin := stdin c;
                        screen := screen c ++ [Printed s] |}).

(** [input(prompt)]: writes the prompt and returns the next line,
    [EOFError] when there is none. *)
Definition input (prompt : string) : io string :=
  fun c =>
    match stdin c with
    | [] => (Failed EOFError,
             {| stdin := []; screen := screen c ++ [Prompted prompt] |})
    | line :: rest =>
        (Done line,
         {| stdin := rest; screen := screen c ++ [Prompted prompt] |})
    end.

(** [s.lower()] on the letters of ASCII. *)
Definition lower_ascii (c : ascii) : ascii :=
  let n := nat_of_ascii c in
  if ((65 <=? n) && (n <=? 90))%nat then ascii_of_nat (n + 32) else c.

Fixpoint lower (s : string) : string :=
  match s with
  | EmptyString => EmptyString
  | String c s' => String (lower_ascii c) (lower s')
  end.

(** [s in l] for a list of strings. *)
Definition py_in (s : string) (l : list string) : bool :=
  existsb (String.eqb s) l.

(** The line break inside a string literal. *)
Definition nl : string := String (ascii_of_nat 10) EmptyString.

(** [l[i]] and [l[i] = v] on a list. *)
Definition list_getitem (l : list value) (i : nat) : result value :=
  match nth_error l i with
  | Some v => Ok v
  | None => Raise IndexError
  end.

Fixpoint list_setitem (l : list value) (i : nat) (v : value)
  : result (list value) :=
  match l, i with
  | [], _ => Raise IndexError
  | _ :: l', O => Ok (v :: l')
  | x :: l', S i' =>
      match list_setitem l' i' v with
      | Ok l'' => Ok (x :: l'')
      | Raise e => Raise e
      end
  end.

(** The dictionary [d] once the list under [k] has been replaced. *)
Fixpoint dict_replace {A : Type} (d : dict A) (k : string) (a : A) : dict A :=
  match d with
  | [] => []
  | (k', a') :: d' =>
      if String.eqb k k' then (k', a) :: d'
      else (k', a') :: dict_replace d' k a
  end.

(** [d[k][i] = v] *)
Definition dict_setitem_at (d : dict (list value)) (k : string) (i : nat)
    (v : value) : result (dict (list value)) :=
  l <- dict_getitem d k ;;
  l' <- list_setitem l i v ;;
  ret (dict_replace d k l').

(** [VALID_TIME_UNITS[k]] for the object [k]: only the strings of the
    table are keys of it. *)
Definition time_unit_of (k : value) : result value :=
  match k with
  | VStr s => dict_getitem VALID_TIME_UNITS s
  | _ => Raise KeyError
  end.

Definition VERSION : value := VFloat 1.

Definition is_call_prompt : string := "C for a Call option, P for a Put: ".
Definition is_call_reminder : string :=
  "Please input either C (Call) or P (Put)".
Definition time_unit_prompt : string := "days (D),weeks (W), years (Y): ".
Definition restart_prompt : string :=
  "Continue with another option? Y for Yes, N for No".

(** The empty dictionary of [parameters_input]: for each parameter its
    label and [None]. *)
Definition empty_parameters : dict (list value) :=
  [("underlying_price"%string, [VStr "underlying asset price"; VNone]);
   ("strike"%string, [VStr "strike (price of exercise)"; VNone]);
   ("time_unit"%string, [VStr "time frame"; VNone]);
   ("time_to_expiration"%string, [VStr "time to expiration"; VNone]);
   ("volatility"%string, [VStr "volatility"; VNone]);
   ("rfree_discrete"%string, [VStr "risk-free rate (discrete)"; VNone]);
   ("is_call"%string,
    [VStr "whether the option is a call (C)                                  or a put (P) ";
     VNone])].

(** [NewOption.pricer_BS()] from the front end: what the method prints
    goes to the screen, what it raises is not caught. *)
Definition call_pricer_BS (o : Option) : io value :=
  fun c =>
    let (r, w) := pricer_BS {| self := o; stdout := [] |} in
    (match r with
     | Ok v => Done v
     | Raise e => Failed (Uncaught e)
     end,
     {| stdin := stdin c; screen := screen c ++ map Printed (stdout w) |}).

(** The loop [while True] of [is_call_input], on the answer read before
    it. *)
Fixpoint is_call_input_loop (fuel : nat) (is_call : string) : io value :=
  match fuel with
  | O => out_of_fuel
  | S fuel' =>
      if negb (py_in is_call ["c"; "p"]%string) then
        io_print is_call_reminder ;;
        is_call_input_loop fuel' is_call
      else if String.eqb is_call "c" then ret (VBool true)
      else if String.eqb is_call "p" then ret (VBool false)
      else is_call_input_loop fuel' is_call
  end.

Definition is_call_input (fuel : nat) : io value :=
  line <- input is_call_prompt ;;
  is_call_input_loop fuel (lower line).

(** The loop of [time_unit_input]; leaving it by its condition, the
    function would return [None]. *)
Fixpoint time_unit_input_loop (fuel : nat) (time_unit : string) : io value :=
  match fuel with
  | O => out_of_fuel
  | S fuel' =>
      if negb (py_in time_unit (map fst VALID_TIME_UNITS)) then
        io_print "Please input a time unit" ;;
        line <- input time_unit_prompt ;;
        let time_unit := lower line in
        if negb (py_in time_unit (map fst VALID_TIME_UNITS)) then
          io_print "error: incorrect input." ;;
          time_unit_input_loop fuel' time_unit
        else ret (VStr time_unit)
      else ret VNone
  end.

Definition time_unit_input (fuel : nat) : io value :=
  time_unit_input_loop fuel "".

(** The inner loop of [main_loop]: asks until the answer is "y" or "n". *)
Fixpoint restart_loop (fuel : nat) (restart : string) : io string :=
  match fuel with
  | O => out_of_fuel
  | S fuel' =>
      if negb (String.eqb restart "n") then
        line <- input restart_prompt ;;
        let restart := lower line in
        if py_in restart ["y"; "n"]%string then ret restart
        else
          io_print "error: wrong input. Please input either Y or N" ;;
          restart_loop fuel' restart
      else ret restart
  end.

Section FrontEnd.

(** Two builtins of Python are taken as they are: [float] on a string
    ([None] stands for its [ValueError]) and the text [str] gives for a
    float. *)
Variable float : string -> option R.
Variable float_str : R -> string.

(** [str(v)], which is what an f-string writes for [v]. *)
Definition py_str (v : value) : string :=
  match v with
  | VNone => "None"
  | VBool true => "True"
  | VBool false => "False"
  | VInt z => NilZero.string_of_int (Z.to_int z)
  | VFloat x => float_str x
  | VStr s => s
  end.

Definition boot_menu : io unit :=
  io_print ("Financial options pricer v" ++ py_str VERSION ++ nl
            ++ "Author: Nizar MANNA" ++ nl ++ "github: nizar-manna") ;;
  io_print "European vanilla options pricing".

(** The body of the loop of [parameters_input] for one key. *)
Definition parameters_input_body (fuel : nat) (variable : string)
    (option_parameters : dict (list value)) : io (dict (list value)) :=
  if String.eqb variable "is_call" then
    c <- is_call_input fuel ;;
    raise_from (dict_setitem_at option_parameters variable 1 c)
  else if String.eqb variable "time_unit" then
    k <- time_unit_input fuel ;;
    u <- raise_from (time_unit_of k) ;;
    raise_from (dict_setitem_at option_parameters variable 1 u)
  else
    entry <- raise_from (dict_getitem option_parameters variable) ;;
    label <- raise_from (list_getitem entry 0) ;;
    line <- input ("Please input " ++ py_str label ++ ": ") ;;
    match float line with
    | Some x =>
        raise_from (dict_setitem_at option_parameters variable 1 (VFloat x))
    | None =>
        io_print "error: wrong input (should be a number)" ;;
        ret option_parameters
    end.

Fixpoint parameters_input_loop (fuel : nat) (variables : list string)
    (option_parameters : dict (list value)) : io (dict (list value)) :=
  match variables with
  | [] => ret option_parameters
  | variable :: rest =>
      d <- parameters_input_body fuel variable option_parameters ;;
      parameters_input_loop fuel rest d
  end.

Definition parameters_input (fuel : nat) : io (dict (list value)) :=
  parameters_input_loop fuel (map fst empty_parameters) empty_parameters.

(** One round of [main_loop]: an option is read, built and priced, then
    the user is asked whether to go on. *)
Definition main_loop_round (fuel : nat) (restart : string) : io string :=
  d <- parameters_input fuel ;;
  NewOption <- raise_from (__init__ (parameters d)) ;;
  io_print "-------------------------" ;;
  price <- call_pricer_BS NewOption ;;
  io_print ("Option Price: " ++ py_str price) ;;
  io_print (nl ++ " " ++ nl) ;;
  restart_loop fuel restart.

Fixpoint main_loop_rounds (fuel : nat) (restart : string) : io unit :=
  match fuel with
  | O => out_of_fuel
  | S fuel' =>
      if negb (String.eqb restart "n") then
        restart' <- main_loop_round fuel restart ;;
        main_loop_rounds fuel' restart'
      else ret tt
  end.

Definition main_loop (fuel : nat) : io unit :=
  boot_menu ;;
  main_loop_rounds fuel "".

End FrontEnd.

(** A reader for the examples: plain decimal integers, which [float]
    reads as this does; it stands for [float] on no other text. *)
Definition decimal_float (s : string) : option R :=
  match NilZero.int_of_string s with
  | Some i => Some (IZR (Z.of_int i))
  | None => None
  end.

(** A rendering of floats for the examples; the statements hold for
    every rendering. *)
Definition unrendered (x : R) : string := "<float>".

(** *** Lines typed and lines written *)

(** A time unit that the table does not know. *)
Definition unknown_unit (line : string) : Prop :=
  py_in (lower line) (map fst VALID_TIME_UNITS) = false.

(** What [time_unit_input] writes for a line it refuses, and for the
    line it reads next. *)
Definition time_unit_refused : list event :=
  [Printed "Please input a time unit"; Prompted time_unit_prompt;
   Printed "error: incorrect input."].

Definition time_unit_asked : list event :=
  [Printed "Please input a time unit"; Prompted time_unit_prompt].

(** What the inner loop of [main_loop] writes for an answer it
    refuses. *)
Definition restart_refused : list event :=
  [Prompted restart_prompt;
   Printed "error: wrong input. Please input either Y or N"].

(** An answer to the restart prompt that is neither yes nor no. *)
Definition unknown_answer (line : string) : Prop :=
  py_in (lower line) ["y"; "n"]%string = false.

(** An action that returns has read some lines from the front of the
    input, and nothing else of it. *)
Definition forward {A : Type} (m : io A) : Prop :=
  forall (c : console) (a : A) (c' : console),
    m c = (Done a, c') ->
    exists before : list string, stdin c = before ++ stdin c'.

(** What a numeric entry of the dictionary can hold once
    [parameters_input] is through: the [None] it started with, or a
    float. *)
Definition none_or_float (v : value) : Prop :=
  v = VNone \/ exists x : R, v = VFloat x.

(** What a numeric prompt stores for the line typed: the number [float]
    reads, or the [None] that was there. *)
Definition stored (float : string -> option R) (line : string) : value :=
  match float line with
  | Some x => VFloat x
  | None => VNone
  end.

(** What a numeric prompt writes: the prompt with the label, and the
    error when [float] rejects the line. *)
Definition asked (float : string -> option R) (label line : string)
  : list event :=
  Prompted ("Please input " ++ label ++ ": ")
  :: match float line with
     | Some _ => []
     | None => [Printed "error: wrong input (should be a number)"]
     end.

(** The eight lines of one round of [main_loop], in the order they are
    asked. *)
Record answers : Type := {
  underlying_price_line : string;
  strike_line : string;
  time_unit_line : string;
  time_to_expiration_line : string;
  volatility_line : string;
  rfree_discrete_line : string;
  is_call_line : string;
  restart_line : string
}.

Definition typed (a : answers) : list string :=
  [underlying_price_line a; strike_line a; time_unit_line a;
   time_to_expiration_line a; volatility_line a; rfree_discrete_line a;
   is_call_line a; restart_line a].

(** The option that the lines of a round describe. *)
Record quote : Type := {
  q_is_call : bool;
  q_underlying_price : R;
  q_strike : R;
  q_time_unit : R;
  q_time_to_expiration : R;
  q_volatility : R;
  q_rfree_discrete : R
}.

(** The lines [a] read as the option [q]: [float] reads the five
    numbers, the time unit is a key of the table, up to case, and the
    call/put answer is "c" or "p", up to case. *)
Definition reads (float : string -> option R) (a : answers) (q : quote)
  : Prop :=
  float (underlying_price_line a) = Some (q_underlying_price q)
  /\ float (strike_line a) = Some (q_strike q)
  /\ (exists U : value,
        dict_get VALID_TIME_UNITS (lower (time_unit_line a)) = Some U
        /\ as_real U = Some (q_time_unit q))
  /\ float (time_to_expiration_line a) = Some (q_time_to_expiration q)
  /\ float (volatility_line a) = Some (q_volatility q)
  /\ float (rfree_discrete_line a) = Some (q_rfree_discrete q)
  /\ lower (is_call_line a) = (if q_is_call q then "c" else "p")%string.

(** The domain on which the real functions of the model are those of
    NumPy. *)
Definition in_domain (q : quote) : Prop :=
  0 < q_underlying_price q /\ 0 < q_strike q
  /\ 0 < q_time_to_expiration q /\ 0 < q_volatility q
  /\ -1 < q_rfree_discrete q.

Definition quoted_price (q : quote) : R :=
  spec_price (q_is_call q) (q_underlying_price q) (q_strike q)
    (q_time_to_expiration q / q_time_unit q)
    (ln (1 + q_rfree_discrete q)) (q_volatility q).

(** What [boot_menu] writes. *)
Definition boot_screen (float_str : R -> string) : list event :=
  [Printed ("Financial options pricer v" ++ float_str 1 ++ nl
            ++ "Author: Nizar MANNA" ++ nl ++ "github: nizar-manna");
   Printed "European vanilla options pricing"].

(** What the seven prompts of [parameters_input] write when every line
    is accepted. *)
Definition prompts_screen : list event :=
  [Prompted "Please input underlying asset price: ";
   Prompted "Please input strike (price of exercise): ";
   Printed "Please input a time unit"; Prompted time_unit_prompt;
   Prompted "Please input time to expiration: ";
   Prompted "Please input volatility: ";
   Prompted "Please input risk-free rate (discrete): ";
   Prompted is_call_prompt].

(** What one round of [main_loop] writes for the option [q]. *)
Definition round_screen (float_str : R -> string) (q : quote)
  : list event :=
  prompts_screen
  ++ [Printed "-------------------------";
      Printed ("Option Price: " ++ float_str (quoted_price q));
      Printed (nl ++ " " ++ nl);
      Prompted restart_prompt].

(** A session: the rounds are answered "y", up to case, but the last,
    which is answered "n". *)
Fixpoint stops_at_last (session : list (answers * quote)) : Prop :=
  match session with
  | [] => False
  | [(a, _)] => lower (restart_line a) = "n"%string
  | (a, _) :: session' =>
      lower (restart_line a) = "y"%string /\ stops_at_last session'
  end.

(** The lines of an at-the-money option, one year, no interest, and
    the option they describe. *)
Definition at_the_money_lines (c restart : string) : answers :=
  {| underlying_price_line := "100"; strike_line := "100";
     time_unit_line := "Y"; time_to_expiration_line := "1";
     volatility_line := "1"; rfree_discrete_line := "0";
     is_call_line := c; restart_line := restart |}.

Definition at_the_money (b : bool) : quote :=
  {| q_is_call := b; q_underlying_price := 100; q_strike := 100;
     q_time_unit := 1; q_time_to_expiration := 1; q_volatility := 1;
     q_rfree_discrete := 0 |}.

(** The keys that the constructor reads in [option_parameters]. *)
Definition option_keys : list string :=
  ["is_call"; "underlying_price"; "strike"; "time_unit";
   "time_to_expiration"; "rfree_discrete"; "volatility"]%string.

(** ** Running [pricer_BS] *)

(** One step of a method body: unfold the monad and the primitives, and
    project the attributes of the instance. *)
Ltac method_step :=
  unfold attr, lift, print, py_truediv, py_pow, py_mul;
  cbn [bind ret method_monad self stdout].

(** What one call computes once the three numeric attributes it reads
    are numbers and the strike is not zero: the branch is chosen by
    [is_call], and only the last branch touches the output. *)
Lemma pricer_BS_run (o : Option) (out : list string) (S K sigma : R) :
  as_real (underlying_price o) = Some S ->
  as_real (strike o) = Some K ->
  as_real (volatility o) = Some sigma ->
  K <> 0 ->
  pricer_BS {| self := o; stdout := out |} =
    let T := time_to_expiration o in
    let r := rfree_continuous o in
    if is_True (is_call o) then
      (Ok (VFloat (spec_price true S K T r sigma)),
       {| self := o; stdout := out |})
    else if is_False (is_call o) then
      (Ok (VFloat (spec_price false S K T r sigma)),
       {| self := o; stdout := out |})
    else
      (Ok VNone, {| self := o; stdout := out ++ [is_call_message] |}).
Proof.
  intros HS HK Hv HK0.
  unfold pricer_BS. method_step. rewrite HS, HK, Hv.
  destruct (Req_dec_T K 0) as [E | _]; [contradiction |].
  destruct (is_True (is_call o)).
  - method_step. rewrite HS, HK. reflexivity.
  - method_step. destruct (is_False (is_call o)); method_step.
    + rewrite HS, HK. reflexivity.
    + reflexivity.
Qed.

(** A call ends in one of three ways, and none of them changes the
    instance: it returns, it returns after printing the message, or it
    raises. *)
Lemma pricer_BS_cases (o : Option) (out : list string) :
  (exists r, pricer_BS {| self := o; stdout := out |}
             = (r, {| self := o; stdout := out |}))
  \/ pricer_BS {| self := o; stdout := out |}
     = (Ok VNone, {| self := o; stdout := out ++ [is_call_message] |}).
Proof.
  unfold pricer_BS. method_step.
  destruct (as_real (underlying_price o)) as [S |] eqn:HS;
    [| left; eexists; reflexivity].
  destruct (as_real (strike o)) as [K |] eqn:HK;
    [| left; eexists; reflexivity].
  destruct (Req_dec_T K 0) as [E | _]; [left; eexists; reflexivity |].
  destruct (as_real (volatility o)) as [sigma |];
    [| left; eexists; reflexivity].
  destruct (is_True (is_call o)).
  - method_step. rewrite HS, HK. left; eexists; reflexivity.
  - method_step. destruct (is_False (is_call o)); method_step.
    + rewrite HS, HK. left; eexists; reflexivity.
    + right. reflexivity.
Qed.

(** The result of a call does not depend on what was printed before. *)
Lemma pricer_BS_result_out (o : Option) (out out' : list string) :
  fst (pricer_BS {| self := o; stdout := out |})
  = fst (pricer_BS {| self := o; stdout := out' |}).
Proof.
  unfold pricer_BS. method_step.
  destruct (as_real (underlying_price o)) as [S |] eqn:HS; [| reflexivity].
  destruct (as_real (strike o)) as [K |] eqn:HK; [| reflexivity].
  destruct (Req_dec_T K 0) as [E | _]; [reflexivity |].
  destruct (as_real (volatility o)) as [sigma |]; [| reflexivity].
  destruct (is_True (is_call o)).
  - method_step. rewrite HS, HK. reflexivity.
  - method_step. destruct (is_False (is_call o)); method_step.
    + rewrite HS, HK. reflexivity.
    + reflexivity.
Qed.

(** ** The exercise boundary *)

Lemma threshold_value_deriv (S K' v t : R) :
  derivable_pt_lim (threshold_value S K' v) t
    (S * norm_pdf t - K' * norm_pdf (t - v)).
Proof.
  unfold threshold_value.
  apply (derivable_pt_lim_minus (mult_real_fct S norm_cdf)
           (mult_real_fct K' (fun t => norm_cdf (t - v)))).
  - apply derivable_pt_lim_scal, norm_cdf_deriv.
  - apply derivable_pt_lim_scal, norm_cdf_shift_deriv.
Qed.

Lemma threshold_slope_sign (S K' v t : R) :
  0 < S -> 0 < K' -> 0 < v ->
  (t <= best_threshold S K' v ->
   0 <= S * norm_pdf t - K' * norm_pdf (t - v))
  /\ (best_threshold S K' v <= t ->
      S * norm_pdf t - K' * norm_pdf (t - v) <= 0).
Proof.
  intros HS HK Hv. rewrite norm_pdf_shift.
  pose proof (norm_pdf_pos t) as Hp.
  assert (Hq : 0 < S / K') by (apply Rdiv_lt_0_compat; assumption).
  assert (Hb : best_threshold S K' v * v - v * v / 2 = ln (S / K')).
  { unfold best_threshold. field. lra. }
  assert (He : K' * exp (ln (S / K')) = S).
  { rewrite exp_ln by assumption. field. lra. }
  set (e := exp (t * v - v * v / 2)). set (e0 := exp (ln (S / K'))) in *.
  replace (S * norm_pdf t - K' * (norm_pdf t * e))
    with (norm_pdf t * K' * (e0 - e)) by (rewrite <- He; ring).
  assert (Hpk : 0 < norm_pdf t * K') by (apply Rmult_lt_0_compat; lra).
  split; intros Ht.
  - assert (Hle : e <= e0).
    { unfold e, e0.
      destruct (Req_dec_T t (best_threshold S K' v)) as [-> | Hne].
      - rewrite Hb. lra.
      - left. apply exp_increasing. rewrite <- Hb. nra. }
    apply Rmult_le_pos; lra.
  - assert (Hle : e0 <= e).
    { unfold e, e0.
      destruct (Req_dec_T t (best_threshold S K' v)) as [-> | Hne].
      - rewrite Hb. lra.
      - left. apply exp_increasing. rewrite <- Hb. nra. }
    assert (0 <= norm_pdf t * K' * (e - e0)) by (apply Rmult_le_pos; lra).
    lra.
Qed.

Lemma threshold_optimal (S K' v d : R) :
  0 < S -> 0 < K' -> 0 < v ->
  threshold_value S K' v d
  <= threshold_value S K' v (best_threshold S K' v).
Proof.
  intros HS HK Hv. set (b := best_threshold S K' v).
  destruct (Rle_dec d b) as [Hd | Hd].
  - apply (deriv_nonneg_incr (threshold_value S K' v)
             (fun t => S * norm_pdf t - K' * norm_pdf (t - v))); auto.
    + intros c _. apply threshold_value_deriv.
    + intros c Hc. apply threshold_slope_sign; auto. unfold b in Hc. lra.
  - apply Ropp_le_cancel.
    apply (deriv_nonneg_incr (fun t => - threshold_value S K' v t)
             (fun t => - (S * norm_pdf t - K' * norm_pdf (t - v))) b d).
    + apply Rlt_le, Rnot_le_lt, Hd.
    + intros c _.
      apply (derivable_pt_lim_opp (threshold_value S K' v)).
      apply threshold_value_deriv.
    + intros c Hc.
      destruct (threshold_slope_sign S K' v c HS HK Hv) as [_ H].
      unfold b in Hc. lra.
Qed.

(** The specification's [d1] is the best threshold for the discounted
    strike [K * exp (- r * T)] and the total volatility
    [sigma * sqrt T]. *)
Lemma spec_d1_best (S K T r sigma : R) :
  0 < S -> 0 < K -> 0 < T -> 0 < sigma ->
  spec_d1 S K T r sigma
  = best_threshold S (K * exp (- r * T)) (sigma * sqrt T).
Proof.
  intros HS HK HT Hs. unfold spec_d1, best_threshold.
  pose proof (sqrt_lt_R0 T HT) as Hq.
  pose proof (sqrt_sqrt T (Rlt_le _ _ HT)) as Hqq.
  pose proof (exp_pos (- r * T)) as He.
  assert (Hln : ln (S / (K * exp (- r * T))) = ln (S / K) + r * T).
  { replace (S / (K * exp (- r * T))) with (S / K * exp (r * T)).
    - rewrite ln_mult; [rewrite ln_exp; reflexivity | | apply exp_pos].
      apply Rdiv_lt_0_compat; assumption.
    - replace (- r * T) with (- (r * T)) by ring. rewrite exp_Ropp.
      pose proof (exp_pos (r * T)). field. split; lra. }
  rewrite Hln. f_equal.
  replace (sigma * sqrt T * (sigma * sqrt T))
    with (sigma ^ 2 * (sqrt T * sqrt T)) by ring.
  rewrite Hqq. field.
Qed.

Lemma spec_call_threshold (S K T r sigma : R) :
  spec_price true S K T r sigma
  = threshold_value S (K * exp (- r * T)) (sigma * sqrt T)
      (spec_d1 S K T r sigma).
Proof. reflexivity. Qed.

(** ** The pricing formula *)

(** C1.  On a contract whose underlying price, strike and volatility are
    numbers above zero and whose time to expiration in years is above
    zero, [pricer_BS] returns the closed form of the specification:
    [S * Phi(d1) - K * exp(-r*T) * Phi(d2)] when [is_call] is [True],
    [K * exp(-r*T) * Phi(-d2) - S * Phi(d1)] when it is [False], with
    [d1] and [d2] as the specification defines them; the call prints
    nothing and leaves the contract as it was. *)
Theorem pricer_BS_closed_form
    (o : Option) (out : list string) (isCall : bool) (S K sigma : R) :
  as_real (underlying_price o) = Some S ->
  as_real (strike o) = Some K ->
  as_real (volatility o) = Some sigma ->
  is_call o = VBool isCall ->
  0 < S -> 0 < K -> 0 < sigma -> 0 < time_to_expiration o ->
  pricer_BS {| self := o; stdout := out |}
  = (Ok (VFloat (spec_price isCall S K (time_to_expiration o)
                   (rfree_continuous o) sigma)),
     {| self := o; stdout := out |}).
Proof.
  intros HS HK Hv Hc _ HK0 _ _.
  rewrite (pricer_BS_run o out S K sigma HS HK Hv) by lra.
  rewrite Hc. destruct isCall; reflexivity.
Qed.

Lemma pricer_BS_closed_form_witness :
  pricer_BS {| self := scenario true; stdout := [] |}
  = (Ok (VFloat (spec_price true 100 100 1 (ln (1 + 0.05)) 0.2)),
     {| self := scenario true; stdout := [] |})
  /\ pricer_BS {| self := scenario false; stdout := [] |}
     = (Ok (VFloat (spec_price false 100 100 1 (ln (1 + 0.05)) 0.2)),
        {| self := scenario false; stdout := [] |}).
Proof.
  split.
  - apply (pricer_BS_closed_form (scenario true) [] true 100 100 0.2);
      try reflexivity; simpl; lra.
  - apply (pricer_BS_closed_form (scenario false) [] false 100 100 0.2);
      try reflexivity; simpl; lra.
Defined.

(** ** Construction *)

Lemma py_truediv_ok (a b : value) (x y : R) :
  as_real a = Some x -> as_real b = Some y -> y <> 0 ->
  py_truediv a b = Ok (x / y).
Proof.
  intros Ha Hb Hy. unfold py_truediv. rewrite Ha, Hb.
  destruct (Req_dec_T y 0); [contradiction | reflexivity].
Qed.

Lemma py_truediv_zero (a b : value) (x : R) :
  as_real a = Some x -> as_real b = Some 0 ->
  py_truediv a b = Raise ZeroDivisionError.
Proof.
  intros Ha Hb. unfold py_truediv. rewrite Ha, Hb.
  destruct (Req_dec_T 0 0); [reflexivity | contradiction].
Qed.

Lemma py_truediv_inv (a b : value) (q : R) :
  py_truediv a b = Ok q ->
  exists x y, as_real a = Some x /\ as_real b = Some y /\ y <> 0
              /\ q = x / y.
Proof.
  unfold py_truediv.
  destruct (as_real a) as [x |]; [| discriminate].
  destruct (as_real b) as [y |]; [| discriminate].
  destruct (Req_dec_T y 0) as [E | N]; [discriminate |].
  intros [= <-]. now exists x, y.
Qed.

Lemma py_add_inv (a : R) (b : value) (q : R) :
  py_add a b = Ok q -> exists y, as_real b = Some y /\ q = a + y.
Proof.
  unfold py_add. destruct (as_real b) as [y |]; [| discriminate].
  intros [= <-]. now exists y.
Qed.

(** The constructor called by keywords: it succeeds as soon as the
    quotient and the logarithm's argument can be computed. *)
Lemma init_keywords (c s u t k r v : value) (tx ux rx : R) :
  as_real t = Some tx -> as_real u = Some ux -> ux <> 0 ->
  as_real r = Some rx ->
  __init__ (keywords c s u t k r v)
  = Ok {| is_call := c; underlying_price := s; strike := k;
          time_unit := u; time_to_expiration := tx / ux;
          rfree_discrete := r; volatility := v;
          rfree_continuous := ln (1 + rx) |}.
Proof.
  intros Ht Hu Hux Hr. unfold __init__, keywords.
  cbn [arg_option_parameters arg_time_to_expiration arg_time_unit
       arg_rfree_discrete arg_is_call arg_underlying_price arg_strike
       arg_volatility].
  rewrite (py_truediv_ok t u tx ux Ht Hu Hux).
  unfold py_add. rewrite Hr. reflexivity.
Qed.

(** The constructor called with the dictionary does what the call by
    keywords does on the seven entries it reads. *)
Lemma init_parameters (d : dict (list value)) (c s u t k r v : value) :
  py_index (dict_get d "is_call") 1 = Ok c ->
  py_index (dict_get d "underlying_price") 1 = Ok s ->
  py_index (dict_get d "strike") 1 = Ok k ->
  py_index (dict_get d "time_unit") 1 = Ok u ->
  py_index (dict_get d "time_to_expiration") 1 = Ok t ->
  py_index (dict_get d "rfree_discrete") 1 = Ok r ->
  py_index (dict_get d "volatility") 1 = Ok v ->
  __init__ (parameters d) = __init__ (keywords c s u t k r v).
Proof.
  intros Hc Hs Hk Hu Ht Hr Hv. unfold __init__, parameters, keywords.
  cbn [arg_option_parameters arg_time_to_expiration arg_time_unit
       arg_rfree_discrete arg_is_call arg_underlying_price arg_strike
       arg_volatility bind ret result_monad].
  rewrite Hc, Hs, Hk, Hu, Ht.
  destruct (py_truediv t u) as [q | e]; [| reflexivity].
  rewrite Hr, Hv. reflexivity.
Qed.

(** On the dictionary of [parameters_input] the constructor does what
    the call by keywords does on the values read. *)
Lemma init_prompted (s k u t v r c : value) :
  __init__ (parameters (prompted s k u t v r c))
  = __init__ (keywords c s u t k r v).
Proof. apply init_parameters; reflexivity. Qed.

(** What a successful construction tells about the inputs and the
    attributes, whichever way the constructor was called. *)
Lemma init_inv (a : init_args) (o : Option) :
  __init__ a = Ok o ->
  exists raw unit rd tx ux rx,
    given a "time_to_expiration" arg_time_to_expiration = Ok raw
    /\ given a "time_unit" arg_time_unit = Ok unit
    /\ given a "rfree_discrete" arg_rfree_discrete = Ok rd
    /\ as_real raw = Some tx /\ as_real unit = Some ux /\ ux <> 0
    /\ as_real rd = Some rx
    /\ time_unit o = unit /\ rfree_discrete o = rd
    /\ time_to_expiration o = tx / ux
    /\ rfree_continuous o = ln (1 + rx).
Proof.
  unfold __init__, given.
  destruct (arg_option_parameters a) as [d |].
  - cbn [bind ret result_monad].
    destruct (py_index (dict_get d "is_call") 1) as [c | e];
      [| discriminate].
    destruct (py_index (dict_get d "underlying_price") 1) as [s | e];
      [| discriminate].
    destruct (py_index (dict_get d "strike") 1) as [k | e];
      [| discriminate].
    destruct (py_index (dict_get d "time_unit") 1) as [u | e];
      [| discriminate].
    destruct (py_index (dict_get d "time_to_expiration") 1) as [t0 | e];
      [| discriminate].
    destruct (py_truediv t0 u) as [t | e] eqn:Hdiv; [| discriminate].
    destruct (py_index (dict_get d "rfree_discrete") 1) as [r | e];
      [| discriminate].
    destruct (py_index (dict_get d "volatility") 1) as [v | e];
      [| discriminate].
    destruct (py_add 1 r) as [r1 | e] eqn:Hadd; [| discriminate].
    intros [= <-].
    destruct (py_truediv_inv _ _ _ Hdiv) as (tx & ux & Ht & Hu & Hux & ->).
    destruct (py_add_inv _ _ _ Hadd) as (rx & Hr & ->).
    exists t0, u, r, tx, ux, rx. cbn. repeat split; auto.
  - cbn [bind ret result_monad].
    destruct (py_truediv _ _) as [t | e] eqn:Hdiv; [| discriminate].
    destruct (py_add 1 _) as [r1 | e] eqn:Hadd; [| discriminate].
    intros [= <-].
    destruct (py_truediv_inv _ _ _ Hdiv) as (tx & ux & Ht & Hu & Hux & ->).
    destruct (py_add_inv _ _ _ Hadd) as (rx & Hr & ->).
    exists (arg_time_to_expiration a), (arg_time_unit a),
      (arg_rfree_discrete a), tx, ux, rx.
    cbn. repeat split; auto.
Qed.

(** A call of [pricer_BS] leaves the instance as it found it. *)
Lemma pricer_BS_self (o : Option) (out : list string) :
  self (snd (pricer_BS {| self := o; stdout := out |})) = o.
Proof.
  destruct (pricer_BS_cases o out) as [[r ->] | ->]; reflexivity.
Qed.

(** C2.  After a successful construction the two derived attributes are
    functions of what the caller gave: [time_to_expiration] is the raw
    time divided by the time unit, and [rfree_continuous] is
    [ln (1 + rfree_discrete)] for a discrete rate above [-1]; the
    constructor has no argument that sets either of them on its own, the
    instance keeps the unit and the discrete rate they were derived
    from, and a call of [pricer_BS] does not change them. *)
Theorem derived_fields_of_construction (a : init_args) (o : Option) :
  __init__ a = Ok o ->
  exists raw unit rd tx ux rx,
    given a "time_to_expiration" arg_time_to_expiration = Ok raw
    /\ given a "time_unit" arg_time_unit = Ok unit
    /\ given a "rfree_discrete" arg_rfree_discrete = Ok rd
    /\ as_real raw = Some tx /\ as_real unit = Some ux
    /\ as_real rd = Some rx
    /\ time_unit o = unit /\ rfree_discrete o = rd
    /\ time_to_expiration o = tx / ux
    /\ (-1 < rx -> rfree_continuous o = ln (1 + rx))
    /\ forall out,
         let o' := self (snd (pricer_BS {| self := o; stdout := out |})) in
         time_to_expiration o' = time_to_expiration o
         /\ rfree_continuous o' = rfree_continuous o.
Proof.
  intros H.
  destruct (init_inv a o H)
    as (raw & unit & rd & tx & ux & rx & H1 & H2 & H3 & H4 & H5 & _ & H6
        & H7 & H8 & H9 & H10).
  exists raw, unit, rd, tx, ux, rx.
  repeat (split; [assumption |]).
  split; [intros _; assumption |].
  intros out. cbv zeta. rewrite pricer_BS_self. split; reflexivity.
Qed.

Lemma init_thirty_days : __init__ thirty_days_args = Ok thirty_days.
Proof.
  apply (init_keywords _ _ _ _ _ _ _ 30 365 0.05);
    try reflexivity; simpl; lra.
Qed.

Lemma derived_fields_of_construction_witness :
  __init__ thirty_days_args = Ok thirty_days
  /\ exists raw unit rd tx ux rx,
    given thirty_days_args "time_to_expiration" arg_time_to_expiration
    = Ok raw
    /\ given thirty_days_args "time_unit" arg_time_unit = Ok unit
    /\ given thirty_days_args "rfree_discrete" arg_rfree_discrete = Ok rd
    /\ as_real raw = Some tx /\ as_real unit = Some ux
    /\ as_real rd = Some rx
    /\ time_unit thirty_days = unit /\ rfree_discrete thirty_days = rd
    /\ time_to_expiration thirty_days = tx / ux
    /\ (-1 < rx -> rfree_continuous thirty_days = ln (1 + rx))
    /\ forall out,
         let o' := self (snd (pricer_BS {| self := thirty_days;
                                           stdout := out |})) in
         time_to_expiration o' = time_to_expiration thirty_days
         /\ rfree_continuous o' = rfree_continuous thirty_days.
Proof.
  split; [exact init_thirty_days |].
  apply (derived_fields_of_construction thirty_days_args thirty_days).
  exact init_thirty_days.
Defined.

(** ** The table of time units *)

(** C4.  [VALID_TIME_UNITS] maps the day selector to 365, the week
    selector to [52 + 1/52] and the year selector to 1 (the selectors are
    the keys "d", "w" and "y" of the table), and the lookup of any other
    selector, "month" for one, raises ([KeyError]) instead of returning a
    divisor. *)
Theorem valid_time_units_closed :
  (dict_getitem VALID_TIME_UNITS "d" = Ok DAYS_IN_YEAR
   /\ as_real DAYS_IN_YEAR = Some 365)
  /\ (dict_getitem VALID_TIME_UNITS "w" = Ok WEEKS_IN_YEAR
      /\ as_real WEEKS_IN_YEAR = Some (52 + 1 / 52))
  /\ (dict_getitem VALID_TIME_UNITS "y" = Ok (VInt 1)
      /\ as_real (VInt 1) = Some 1)
  /\ (forall selector : string,
        selector <> "d"%string -> selector <> "w"%string ->
        selector <> "y"%string ->
        dict_getitem VALID_TIME_UNITS selector = Raise KeyError)
  /\ dict_getitem VALID_TIME_UNITS "month" = Raise KeyError.
Proof.
  repeat split; try reflexivity.
  intros sel Hd Hw Hy. unfold dict_getitem, VALID_TIME_UNITS.
  cbn [dict_get].
  destruct (String.eqb_spec sel "d"); [contradiction |].
  destruct (String.eqb_spec sel "w"); [contradiction |].
  destruct (String.eqb_spec sel "y"); [contradiction |].
  reflexivity.
Qed.

(** ** Time normalisation *)

(** [pricer_BS] never reads [time_unit]: two instances that differ in
    that attribute only are priced alike. *)
Lemma pricer_BS_ignores_time_unit (c s k u u' r v : value) (t rc : R)
    (out : list string) :
  fst (pricer_BS
         {| self := {| is_call := c; underlying_price := s; strike := k;
                       time_unit := u; time_to_expiration := t;
                       rfree_discrete := r; volatility := v;
                       rfree_continuous := rc |};
            stdout := out |})
  = fst (pricer_BS
           {| self := {| is_call := c; underlying_price := s; strike := k;
                         time_unit := u'; time_to_expiration := t;
                         rfree_discrete := r; volatility := v;
                         rfree_continuous := rc |};
              stdout := out |}).
Proof.
  unfold pricer_BS. method_step.
  cbn [underlying_price strike volatility is_call time_to_expiration
       rfree_continuous].
  destruct (as_real s) as [S |] eqn:HS; [| reflexivity].
  destruct (as_real k) as [K |] eqn:HK; [| reflexivity].
  destruct (Req_dec_T K 0) as [E | _]; [reflexivity |].
  destruct (as_real v) as [sigma |]; [| reflexivity].
  destruct (is_True c).
  - method_step.
    cbn [underlying_price strike volatility is_call time_to_expiration
         rfree_continuous].
    rewrite HS, HK. reflexivity.
  - method_step.
    cbn [underlying_price strike volatility is_call time_to_expiration
         rfree_continuous].
    destruct (is_False c); method_step;
      cbn [underlying_price strike volatility is_call time_to_expiration
           rfree_continuous].
    + rewrite HS, HK. reflexivity.
    + reflexivity.
Qed.

(** C5.  The price depends on the raw time to expiration and on the
    time unit only through their quotient: two constructions by keywords
    that agree on every other argument and whose quotients are computed
    alike are priced alike; in particular 30 with the day divisor (365)
    and [30/365] with the year divisor (1) give the same price, for every
    choice of the other arguments.  A construction from the dictionary
    of [parameters_input] is priced as the one by keywords on the same
    values. *)
Theorem price_through_quotient :
  (forall (c s k r v raw1 unit1 raw2 unit2 : value),
     py_truediv raw1 unit1 = py_truediv raw2 unit2 ->
     price_of (keywords c s unit1 raw1 k r v)
     = price_of (keywords c s unit2 raw2 k r v))
  /\ (forall (c s k r v : value),
        price_of (keywords c s DAYS_IN_YEAR (VFloat 30) k r v)
        = price_of (keywords c s (VInt 1) (VFloat (30 / 365)) k r v))
  /\ (forall (c s k r v raw unit : value),
        price_of (parameters (prompted s k unit raw v r c))
        = price_of (keywords c s unit raw k r v)).
Proof.
  assert (G : forall (c s k r v raw1 unit1 raw2 unit2 : value),
             py_truediv raw1 unit1 = py_truediv raw2 unit2 ->
             price_of (keywords c s unit1 raw1 k r v)
             = price_of (keywords c s unit2 raw2 k r v)).
  { intros c s k r v raw1 unit1 raw2 unit2 H.
    unfold price_of, __init__, keywords, call_on.
    cbn [arg_option_parameters arg_time_to_expiration arg_time_unit
         arg_rfree_discrete arg_is_call arg_underlying_price arg_strike
         arg_volatility bind ret result_monad].
    rewrite H. destruct (py_truediv raw2 unit2) as [t | e]; [| reflexivity].
    destruct (py_add 1 r) as [r1 | e]; [| reflexivity].
    apply pricer_BS_ignores_time_unit. }
  split; [exact G | split].
  - intros c s k r v. apply G.
    rewrite (py_truediv_ok (VFloat 30) DAYS_IN_YEAR 30 365)
      by (try reflexivity; simpl; lra).
    rewrite (py_truediv_ok (VFloat (30 / 365)) (VInt 1) (30 / 365) 1)
      by (try reflexivity; simpl; lra).
    f_equal. field.
  - intros c s k r v raw unit. unfold price_of.
    rewrite init_prompted. reflexivity.
Qed.

Lemma price_through_quotient_witness :
  price_of (keywords (VBool true) (VFloat 100) DAYS_IN_YEAR (VFloat 30)
              (VFloat 100) (VFloat 0.05) (VFloat 0.2))
  = price_of (keywords (VBool true) (VFloat 100) (VInt 1)
                (VFloat (30 / 365)) (VFloat 100) (VFloat 0.05)
                (VFloat 0.2)).
Proof.
  apply (proj1 (proj2 price_through_quotient)).
Defined.

(** ** Out-of-domain parameters *)




(** ** The branches of [pricer_BS] *)




(** ** Purity *)

(** C9.  A call of [pricer_BS] leaves every attribute of the contract
    ([is_call], [underlying_price], [strike], [time_unit],
    [time_to_expiration], [rfree_discrete], [rfree_continuous],
    [volatility]) as it was, and a second call on the same contract
    returns (or raises) what the first one did. *)
Theorem pricer_BS_pure (o : Option) (out : list string) :
  let first := pricer_BS {| self := o; stdout := out |} in
  let second := pricer_BS (snd first) in
  self (snd first) = o
  /\ self (snd second) = o
  /\ fst second = fst first.
Proof.
  cbv zeta.
  destruct (pricer_BS_cases o out) as [[r E] | E]; rewrite E;
    cbn [fst snd self].
  - rewrite E. cbn [fst snd self]. auto.
  - rewrite pricer_BS_self, (pricer_BS_result_out o _ out), E. auto.
Qed.

(** ** A time unit of zero *)

(** C10.  With a time unit equal to zero and a numeric raw time, the
    division of the constructor raises [ZeroDivisionError]: by keywords
    at once, and with the dictionary as soon as the entries read before
    the division are there.  Nothing checks the unit before the division,
    so whenever the constructor returns a contract its time unit is a
    number other than zero. *)
Theorem zero_time_unit_raises :
  (forall (c s u t k r v : value) (tx : R),
     as_real t = Some tx -> as_real u = Some 0 ->
     __init__ (keywords c s u t k r v) = Raise ZeroDivisionError)
  /\ (forall (d : dict (list value)) (c s k u t : value) (tx : R),
        py_index (dict_get d "is_call") 1 = Ok c ->
        py_index (dict_get d "underlying_price") 1 = Ok s ->
        py_index (dict_get d "strike") 1 = Ok k ->
        py_index (dict_get d "time_unit") 1 = Ok u ->
        py_index (dict_get d "time_to_expiration") 1 = Ok t ->
        as_real t = Some tx -> as_real u = Some 0 ->
        __init__ (parameters d) = Raise ZeroDivisionError)
  /\ (forall (a : init_args) (o : Option),
        __init__ a = Ok o ->
        exists ux, as_real (time_unit o) = Some ux /\ ux <> 0).
Proof.
  split; [| split].
  - intros c s u t k r v tx Ht Hu. unfold __init__, keywords.
    cbn [arg_option_parameters arg_time_to_expiration arg_time_unit
         bind ret result_monad].
    rewrite (py_truediv_zero t u tx Ht Hu). reflexivity.
  - intros d c s k u t tx Hc Hs Hk Hu Ht Htx Hu0.
    unfold __init__, parameters.
    cbn [arg_option_parameters bind ret result_monad].
    rewrite Hc, Hs, Hk, Hu, Ht, (py_truediv_zero t u tx Htx Hu0).
    reflexivity.
  - intros a o H.
    destruct (init_inv a o H)
      as (raw & unit & rd & tx & ux & rx & _ & _ & _ & _ & Hu & Hux & _
          & Hunit & _).
    exists ux. rewrite Hunit. auto.
Qed.

Lemma zero_time_unit_raises_witness :
  __init__ (keywords (VBool true) (VFloat 100) (VInt 0) (VFloat 30)
              (VFloat 100) (VFloat 0.05) (VFloat 0.2))
  = Raise ZeroDivisionError
  /\ __init__ (parameters
                 (prompted (VFloat 100) (VFloat 100) (VFloat 0) (VFloat 30)
                    (VFloat 0.2) (VFloat 0.05) (VBool true)))
     = Raise ZeroDivisionError.
Proof.
  destruct zero_time_unit_raises as (Hk & Hd & _). split.
  - apply (Hk _ _ _ _ _ _ _ 30); reflexivity.
  - apply (Hd _ (VBool true) (VFloat 100) (VFloat 100) (VFloat 0)
             (VFloat 30) 30); reflexivity.
Defined.

(** ** Put-call parity *)

(** The two branches of the closed form differ by
    [2 * S * Phi(d1) - K * exp(-r*T)]: the put branch subtracts
    [S * Phi(d1)] where the Black-Scholes put subtracts
    [S * Phi(-d1)]. *)
Lemma spec_price_gap (S K T r sigma : R) :
  spec_price true S K T r sigma - spec_price false S K T r sigma
  = 2 * S * norm_cdf (spec_d1 S K T r sigma) - K * exp (- r * T).
Proof.
  unfold spec_price. rewrite norm_cdf_sym. ring.
Qed.

(** Parity holds for the two branches exactly when [Phi(d1)] is one
    half, that is when [d1] is zero. *)
Lemma spec_price_parity_iff (S K T r sigma : R) :
  0 < S ->
  (spec_price true S K T r sigma - spec_price false S K T r sigma
   = S - K * exp (- r * T))
  <-> spec_d1 S K T r sigma = 0.
Proof.
  intros HS. rewrite spec_price_gap. split.
  - intros H.
    assert (Hh : norm_cdf (spec_d1 S K T r sigma) = norm_cdf 0).
    { rewrite norm_cdf_0. nra. }
    destruct (Rtotal_order (spec_d1 S K T r sigma) 0) as [L | [E | G]];
      [| exact E |].
    + apply norm_cdf_incr in L. lra.
    + apply norm_cdf_incr in G. lra.
  - intros ->. rewrite norm_cdf_0. field.
Qed.

Lemma exp_lt_inv (x : R) : 0 < x < 1 -> exp x < / (1 - x).
Proof.
  intros Hx. pose proof (exp_ineq1 (- x) ltac:(lra)) as H.
  rewrite exp_Ropp in H. pose proof (exp_pos x) as Hp.
  rewrite <- (Rinv_inv (exp x)).
  apply Rinv_lt_contravar; [| lra].
  apply Rmult_lt_0_compat; [lra |]. apply Rinv_0_lt_compat. exact Hp.
Qed.

Lemma ln_105_gt : 0.02 < ln (1 + 0.05).
Proof.
  assert (H : exp 0.02 < 1 + 0.05).
  { pose proof (exp_lt_inv 0.02 ltac:(lra)) as H.
    assert (/ (1 - 0.02) < 1 + 0.05).
    { apply (Rmult_lt_reg_r (1 - 0.02)); [lra |].
      rewrite Rinv_l by lra. lra. }
    lra. }
  rewrite <- (ln_exp 0.02) at 1.
  apply ln_increasing; [apply exp_pos | exact H].
Qed.

Lemma init_scenario (call : bool) :
  __init__ (keywords (VBool call) (VFloat 100) (VInt 1) (VFloat 1)
              (VFloat 100) (VFloat 0.05) (VFloat 0.2))
  = Ok (scenario call).
Proof.
  rewrite (init_keywords _ _ _ _ _ _ _ 1 1 0.05)
    by (try reflexivity; simpl; lra).
  unfold scenario. replace (1 / 1) with 1 by field. reflexivity.
Qed.

(** C3 (the code departs from the claim).  On the scenario of the
    specification (spot 100, strike 100, one year, discrete rate 5%,
    volatility 20%), built by the constructor once as a call and once as
    a put, the two prices [pricer_BS] returns do not satisfy put-call
    parity: their difference is not
    [100 - 100 * exp (- rfree_continuous * 1)], and the price of the put
    is below zero. *)
Theorem put_call_parity_fails :
  exists c p : R,
    price_of (keywords (VBool true) (VFloat 100) (VInt 1) (VFloat 1)
                (VFloat 100) (VFloat 0.05) (VFloat 0.2))
    = Ok (VFloat c)
    /\ price_of (keywords (VBool false) (VFloat 100) (VInt 1) (VFloat 1)
                   (VFloat 100) (VFloat 0.05) (VFloat 0.2))
       = Ok (VFloat p)
    /\ c - p <> 100 - 100 * exp (- ln (1 + 0.05) * 1)
    /\ p < 0.
Proof.
  set (r := ln (1 + 0.05)).
  exists (spec_price true 100 100 1 r 0.2),
         (spec_price false 100 100 1 r 0.2).
  assert (Hrun : forall b,
             price_of (keywords (VBool b) (VFloat 100) (VInt 1) (VFloat 1)
                         (VFloat 100) (VFloat 0.05) (VFloat 0.2))
             = Ok (VFloat (spec_price b 100 100 1 r 0.2))).
  { intros b. unfold price_of, call_on. rewrite init_scenario.
    rewrite (pricer_BS_run (scenario b) [] 100 100 0.2);
      try reflexivity; [| lra].
    destruct b; reflexivity. }
  pose proof ln_105_gt as Hr. fold r in Hr.
  assert (Hd1 : spec_d1 100 100 1 r 0.2 = (r + 0.02) / 0.2).
  { unfold spec_d1. rewrite sqrt_1.
    replace (100 / 100) with 1 by lra. rewrite ln_1. lra. }
  assert (Hd2 : spec_d2 100 100 1 r 0.2 = (r - 0.02) / 0.2).
  { unfold spec_d2. rewrite Hd1, sqrt_1. lra. }
  assert (Hp1 : 1 / 2 < norm_cdf (spec_d1 100 100 1 r 0.2)).
  { rewrite <- norm_cdf_0. apply norm_cdf_incr. rewrite Hd1.
    apply Rdiv_lt_0_compat; lra. }
  split; [apply Hrun | split; [apply Hrun | split]].
  - intros H.
    apply (proj1 (spec_price_parity_iff 100 100 1 r 0.2 ltac:(lra))) in H.
    rewrite H, norm_cdf_0 in Hp1. lra.
  - unfold spec_price.
    assert (Hp2 : norm_cdf (- spec_d2 100 100 1 r 0.2) < 1 / 2).
    { rewrite <- norm_cdf_0. apply norm_cdf_incr. rewrite Hd2.
      assert (0 < (r - 0.02) / 0.2) by (apply Rdiv_lt_0_compat; lra).
      lra. }
    assert (He : exp (- r * 1) < 1).
    { apply Rlt_le_trans with (exp 0);
        [apply exp_increasing; lra | rewrite exp_0; lra]. }
    pose proof (exp_pos (- r * 1)) as He0.
    pose proof (norm_cdf_nonneg (- spec_d2 100 100 1 r 0.2)) as Hn.
    assert (100 * exp (- r * 1) * norm_cdf (- spec_d2 100 100 1 r 0.2)
            < 100 * 1 * (1 / 2)).
    { apply Rle_lt_trans
        with (100 * 1 * norm_cdf (- spec_d2 100 100 1 r 0.2)).
      - apply Rmult_le_compat_r; [exact Hn | lra].
      - apply Rmult_lt_compat_l; lra. }
    lra.
Qed.

(** ** Monotonicity *)

Lemma ln_mono (x y : R) : 0 < x -> x <= y -> ln x <= ln y.
Proof.
  intros Hx [H | ->]; [left; now apply ln_increasing | right; reflexivity].
Qed.

(** [d1] does not decrease when the underlying price grows. *)
Lemma spec_d1_mono_S (S1 S2 K T r sigma : R) :
  0 < S1 -> S1 <= S2 -> 0 < K -> 0 < T -> 0 < sigma ->
  spec_d1 S1 K T r sigma <= spec_d1 S2 K T r sigma.
Proof.
  intros HS1 HS HK HT Hs. unfold spec_d1.
  pose proof (sqrt_lt_R0 T HT) as Hq.
  assert (Hden : 0 < sigma * sqrt T) by (apply Rmult_lt_0_compat; lra).
  assert (Hln : ln (S1 / K) <= ln (S2 / K)).
  { apply ln_mono; [apply Rdiv_lt_0_compat; lra |].
    apply Rmult_le_compat_r; [left; apply Rinv_0_lt_compat; lra | lra]. }
  apply Rmult_le_compat_r; [left; apply Rinv_0_lt_compat; lra | lra].
Qed.

(** The call branch does not decrease when the underlying price grows:
    the larger spot does at least as well with the threshold of the
    smaller one. *)
Lemma spec_call_mono_S (S1 S2 K T r sigma : R) :
  0 < S1 -> S1 <= S2 -> 0 < K -> 0 < T -> 0 < sigma ->
  spec_price true S1 K T r sigma <= spec_price true S2 K T r sigma.
Proof.
  intros HS1 HS HK HT Hs.
  pose proof (exp_pos (- r * T)) as He.
  pose proof (sqrt_lt_R0 T HT) as Hq.
  assert (HK' : 0 < K * exp (- r * T)) by (apply Rmult_lt_0_compat; lra).
  assert (Hv : 0 < sigma * sqrt T) by (apply Rmult_lt_0_compat; lra).
  rewrite (spec_call_threshold S2).
  rewrite (spec_d1_best S2 K T r sigma) by lra.
  pose proof (threshold_optimal S2 (K * exp (- r * T)) (sigma * sqrt T)
                (spec_d1 S1 K T r sigma) ltac:(lra) HK' Hv) as Hopt.
  apply Rle_trans
    with (threshold_value S2 (K * exp (- r * T)) (sigma * sqrt T)
            (spec_d1 S1 K T r sigma)); [| exact Hopt].
  rewrite (spec_call_threshold S1). unfold threshold_value.
  pose proof (norm_cdf_nonneg (spec_d1 S1 K T r sigma)). nra.
Qed.

(** The call branch does not decrease when the volatility grows: the
    larger volatility does at least as well with the threshold of the
    smaller one. *)
Lemma spec_call_mono_sigma (S K T r sigma1 sigma2 : R) :
  0 < S -> 0 < K -> 0 < T -> 0 < sigma1 -> sigma1 <= sigma2 ->
  spec_price true S K T r sigma1 <= spec_price true S K T r sigma2.
Proof.
  intros HS HK HT Hs1 Hs.
  pose proof (exp_pos (- r * T)) as He.
  pose proof (sqrt_lt_R0 T HT) as Hq.
  assert (HK' : 0 < K * exp (- r * T)) by (apply Rmult_lt_0_compat; lra).
  assert (Hv2 : 0 < sigma2 * sqrt T) by (apply Rmult_lt_0_compat; lra).
  assert (Hv : sigma1 * sqrt T <= sigma2 * sqrt T)
    by (apply Rmult_le_compat_r; lra).
  rewrite (spec_call_threshold S K T r sigma2).
  rewrite (spec_d1_best S K T r sigma2) by lra.
  pose proof (threshold_optimal S (K * exp (- r * T)) (sigma2 * sqrt T)
                (spec_d1 S K T r sigma1) HS HK' Hv2) as Hopt.
  apply Rle_trans
    with (threshold_value S (K * exp (- r * T)) (sigma2 * sqrt T)
            (spec_d1 S K T r sigma1)); [| exact Hopt].
  rewrite (spec_call_threshold S K T r sigma1). unfold threshold_value.
  assert (Hm : norm_cdf (spec_d1 S K T r sigma1 - sigma2 * sqrt T)
               <= norm_cdf (spec_d1 S K T r sigma1 - sigma1 * sqrt T))
    by (apply norm_cdf_mono; lra).
  nra.
Qed.

(** The put branch does not increase when the underlying price grows. *)
Lemma spec_put_mono_S (S1 S2 K T r sigma : R) :
  0 < S1 -> S1 <= S2 -> 0 < K -> 0 < T -> 0 < sigma ->
  spec_price false S2 K T r sigma <= spec_price false S1 K T r sigma.
Proof.
  intros HS1 HS HK HT Hs.
  pose proof (exp_pos (- r * T)) as He.
  assert (HK' : 0 < K * exp (- r * T)) by (apply Rmult_lt_0_compat; lra).
  pose proof (spec_d1_mono_S S1 S2 K T r sigma HS1 HS HK HT Hs) as Hd.
  unfold spec_price, spec_d2. rewrite !norm_cdf_sym.
  assert (H1 : norm_cdf (spec_d1 S1 K T r sigma)
               <= norm_cdf (spec_d1 S2 K T r sigma))
    by (apply norm_cdf_mono; lra).
  assert (H2 : norm_cdf (spec_d1 S1 K T r sigma - sigma * sqrt T)
               <= norm_cdf (spec_d1 S2 K T r sigma - sigma * sqrt T))
    by (apply norm_cdf_mono; lra).
  pose proof (norm_cdf_nonneg (spec_d1 S1 K T r sigma)) as H0.
  assert (H3 : S1 * norm_cdf (spec_d1 S1 K T r sigma)
               <= S2 * norm_cdf (spec_d1 S2 K T r sigma)).
  { apply Rmult_le_compat; lra. }
  assert (H4 : K * exp (- r * T)
               * norm_cdf (spec_d1 S1 K T r sigma - sigma * sqrt T)
               <= K * exp (- r * T)
                  * norm_cdf (spec_d1 S2 K T r sigma - sigma * sqrt T)).
  { apply Rmult_le_compat_l; lra. }
  lra.
Qed.

Lemma call_on_with_underlying_price
    (o : Option) (b : bool) (S K sigma : R) :
  is_call o = VBool b -> as_real (strike o) = Some K -> K <> 0 ->
  as_real (volatility o) = Some sigma ->
  fst (call_on (with_underlying_price o (VFloat S)))
  = Ok (VFloat (spec_price b S K (time_to_expiration o)
                  (rfree_continuous o) sigma)).
Proof.
  intros Hc HK HK0 Hv. unfold call_on.
  rewrite (pricer_BS_run _ [] S K sigma); try assumption;
    try reflexivity.
  cbn [with_underlying_price is_call time_to_expiration rfree_continuous].
  rewrite Hc. destruct b; reflexivity.
Qed.

Lemma call_on_with_volatility
    (o : Option) (b : bool) (S K sigma : R) :
  is_call o = VBool b -> as_real (strike o) = Some K -> K <> 0 ->
  as_real (underlying_price o) = Some S ->
  fst (call_on (with_volatility o (VFloat sigma)))
  = Ok (VFloat (spec_price b S K (time_to_expiration o)
                  (rfree_continuous o) sigma)).
Proof.
  intros Hc HK HK0 Hs. unfold call_on.
  rewrite (pricer_BS_run _ [] S K sigma); try assumption;
    try reflexivity.
  cbn [with_volatility is_call time_to_expiration rfree_continuous].
  rewrite Hc. destruct b; reflexivity.
Qed.

(** C6.  With the other attributes held fixed, a strike above zero and a
    time to expiration above zero: the price of a call does not decrease
    when the underlying price grows (volatility above zero) nor when the
    volatility grows (underlying price above zero), and the price of a
    put does not increase when the underlying price grows. *)
Theorem price_monotone :
  (forall (o : Option) (K sigma S1 S2 : R),
     is_call o = VBool true ->
     as_real (strike o) = Some K -> 0 < K -> 0 < time_to_expiration o ->
     as_real (volatility o) = Some sigma -> 0 < sigma ->
     0 < S1 -> S1 <= S2 ->
     exists p1 p2 : R,
       fst (call_on (with_underlying_price o (VFloat S1))) = Ok (VFloat p1)
       /\ fst (call_on (with_underlying_price o (VFloat S2)))
          = Ok (VFloat p2)
       /\ p1 <= p2)
  /\ (forall (o : Option) (K S sigma1 sigma2 : R),
        is_call o = VBool true ->
        as_real (strike o) = Some K -> 0 < K -> 0 < time_to_expiration o ->
        as_real (underlying_price o) = Some S -> 0 < S ->
        0 < sigma1 -> sigma1 <= sigma2 ->
        exists p1 p2 : R,
          fst (call_on (with_volatility o (VFloat sigma1)))
          = Ok (VFloat p1)
          /\ fst (call_on (with_volatility o (VFloat sigma2)))
             = Ok (VFloat p2)
          /\ p1 <= p2)
  /\ (forall (o : Option) (K sigma S1 S2 : R),
        is_call o = VBool false ->
        as_real (strike o) = Some K -> 0 < K -> 0 < time_to_expiration o ->
        as_real (volatility o) = Some sigma -> 0 < sigma ->
        0 < S1 -> S1 <= S2 ->
        exists p1 p2 : R,
          fst (call_on (with_underlying_price o (VFloat S1)))
          = Ok (VFloat p1)
          /\ fst (call_on (with_underlying_price o (VFloat S2)))
             = Ok (VFloat p2)
          /\ p2 <= p1).
Proof.
  split; [| split].
  - intros o K sigma S1 S2 Hc HK HK0 HT Hv Hs HS1 HS.
    exists (spec_price true S1 K (time_to_expiration o)
              (rfree_continuous o) sigma),
           (spec_price true S2 K (time_to_expiration o)
              (rfree_continuous o) sigma).
    split; [apply call_on_with_underlying_price; auto; lra |].
    split; [apply call_on_with_underlying_price; auto; lra |].
    now apply spec_call_mono_S.
  - intros o K S sigma1 sigma2 Hc HK HK0 HT Hs HS Hs1 Hs12.
    exists (spec_price true S K (time_to_expiration o)
              (rfree_continuous o) sigma1),
           (spec_price true S K (time_to_expiration o)
              (rfree_continuous o) sigma2).
    split; [apply call_on_with_volatility; auto; lra |].
    split; [apply call_on_with_volatility; auto; lra |].
    now apply spec_call_mono_sigma.
  - intros o K sigma S1 S2 Hc HK HK0 HT Hv Hs HS1 HS.
    exists (spec_price false S1 K (time_to_expiration o)
              (rfree_continuous o) sigma),
           (spec_price false S2 K (time_to_expiration o)
              (rfree_continuous o) sigma).
    split; [apply call_on_with_underlying_price; auto; lra |].
    split; [apply call_on_with_underlying_price; auto; lra |].
    now apply spec_put_mono_S.
Qed.

Lemma price_monotone_witness :
  (exists p1 p2 : R,
     fst (call_on (with_underlying_price (scenario true) (VFloat 100)))
     = Ok (VFloat p1)
     /\ fst (call_on (with_underlying_price (scenario true) (VFloat 110)))
        = Ok (VFloat p2)
     /\ p1 <= p2)
  /\ (exists p1 p2 : R,
        fst (call_on (with_volatility (scenario true) (VFloat 0.2)))
        = Ok (VFloat p1)
        /\ fst (call_on (with_volatility (scenario true) (VFloat 0.3)))
           = Ok (VFloat p2)
        /\ p1 <= p2)
  /\ (exists p1 p2 : R,
        fst (call_on (with_underlying_price (scenario false) (VFloat 100)))
        = Ok (VFloat p1)
        /\ fst (call_on (with_underlying_price (scenario false)
                           (VFloat 110)))
           = Ok (VFloat p2)
        /\ p2 <= p1).
Proof.
  destruct price_monotone as (HS & Hv & HP).
  split; [| split].
  - apply (HS (scenario true) 100 0.2 100 110);
      try reflexivity; simpl; lra.
  - apply (Hv (scenario true) 100 100 0.2 0.3);
      try reflexivity; simpl; lra.
  - apply (HP (scenario false) 100 0.2 100 110);
      try reflexivity; simpl; lra.
Defined.

(** ** The front end: the prompts *)

(** One step of a run of the front end: unfold the monad and the
    primitives. *)
Ltac io_step :=
  unfold input, io_print, out_of_fuel, raise_from;
  cbn [bind ret io_monad stdin screen].

(** X1.  When the line typed at the call/put prompt is "c" or "p" up to
    the case of the letter, [is_call_input] returns [True] for "c" and
    [False] for "p"; it reads that line only and writes the prompt
    only. *)
Theorem is_call_input_answers
    (fuel : nat) (line : string) (rest : list string) (scr : list event)
    (b : bool) :
  lower line = (if b then "c" else "p")%string ->
  is_call_input (S fuel) {| stdin := line :: rest; screen := scr |}
  = (Done (VBool b),
     {| stdin := rest; screen := scr ++ [Prompted is_call_prompt] |}).
Proof.
  intros H. unfold is_call_input. io_step. rewrite H.
  destruct b; reflexivity.
Qed.

Lemma is_call_input_answers_witness :
  is_call_input 1 {| stdin := ["C"%string; "n"%string]; screen := [] |}
  = (Done (VBool true),
     {| stdin := ["n"%string];
        screen := [] ++ [Prompted is_call_prompt] |})
  /\ is_call_input 1 {| stdin := ["p"%string]; screen := [] |}
     = (Done (VBool false),
        {| stdin := []; screen := [] ++ [Prompted is_call_prompt] |}).
Proof.
  split.
  - apply (is_call_input_answers 0 "C" ["n"%string] [] true). reflexivity.
  - apply (is_call_input_answers 0 "p" [] [] false). reflexivity.
Defined.

Lemma is_call_input_loop_hangs
    (fuel : nat) (answer : string) (c : console) :
  answer <> "c"%string -> answer <> "p"%string ->
  is_call_input_loop fuel answer c
  = (OutOfFuel,
     {| stdin := stdin c;
        screen := screen c ++ repeat (Printed is_call_reminder) fuel |}).
Proof.
  intros Hc Hp. revert c. induction fuel as [| fuel IH]; intros c.
  - cbn [is_call_input_loop repeat]. io_step. rewrite app_nil_r.
    destruct c; reflexivity.
  - cbn [is_call_input_loop py_in existsb].
    destruct (String.eqb_spec answer "c"); [contradiction |].
    destruct (String.eqb_spec answer "p"); [contradiction |].
    cbn [orb negb]. io_step. rewrite IH. cbn [stdin screen repeat].
    rewrite <- app_assoc. reflexivity.
Qed.

(** X2.  When the line typed at the call/put prompt is neither "c" nor
    "p" (up to case), [is_call_input] never returns and never asks
    again: whatever the number of turns its loop is given, it is still
    running, having read that one line and written the reminder once per
    turn. *)
Theorem is_call_input_hangs
    (fuel : nat) (line : string) (rest : list string) (scr : list event) :
  lower line <> "c"%string -> lower line <> "p"%string ->
  is_call_input fuel {| stdin := line :: rest; screen := scr |}
  = (OutOfFuel,
     {| stdin := rest;
        screen := scr ++ [Prompted is_call_prompt]
                  ++ repeat (Printed is_call_reminder) fuel |}).
Proof.
  intros Hc Hp. unfold is_call_input. io_step.
  rewrite (is_call_input_loop_hangs fuel (lower line) _ Hc Hp).
  cbn [stdin screen]. rewrite <- app_assoc. reflexivity.
Qed.

Lemma is_call_input_hangs_witness :
  is_call_input 3 {| stdin := ["call"%string; "c"%string]; screen := [] |}
  = (OutOfFuel,
     {| stdin := ["c"%string];
        screen := [] ++ [Prompted is_call_prompt]
                  ++ repeat (Printed is_call_reminder) 3 |}).
Proof.
  apply (is_call_input_hangs 3 "call" ["c"%string] []); discriminate.
Defined.

Lemma time_unit_input_loop_skips
    (fuel : nat) (unit0 : string) (bad : list string) (good : string)
    (rest : list string) (scr : list event) :
  py_in unit0 (map fst VALID_TIME_UNITS) = false ->
  Forall unknown_unit bad -> ~ unknown_unit good ->
  (List.length bad < fuel)%nat ->
  time_unit_input_loop fuel unit0
    {| stdin := bad ++ good :: rest; screen := scr |}
  = (Done (VStr (lower good)),
     {| stdin := rest;
        screen := scr ++ flat_map (fun _ => time_unit_refused) bad
                  ++ time_unit_asked |}).
Proof.
  intros H0 Hbad Hgood. revert unit0 H0 bad Hbad scr.
  induction fuel as [| fuel IH]; intros unit0 H0 bad Hbad scr Hlen;
    [inversion Hlen |].
  cbn [time_unit_input_loop]. rewrite H0. cbn [negb]. io_step.
  destruct bad as [| line bad].
  - cbn [app flat_map]. unfold unknown_unit in Hgood.
    destruct (py_in (lower good) (map fst VALID_TIME_UNITS));
      [| contradiction Hgood; reflexivity].
    cbn [negb]. io_step. unfold time_unit_asked.
    rewrite <- app_assoc. reflexivity.
  - inversion Hbad as [| x l Hline Hbad' E]; subst.
    cbn [app flat_map]. unfold unknown_unit in Hline. rewrite Hline.
    cbn [negb]. io_step.
    rewrite (IH (lower line) Hline bad Hbad');
      [| cbn [List.length] in Hlen; apply PeanoNat.lt_S_n; exact Hlen].
    unfold time_unit_refused. rewrite <- !app_assoc. reflexivity.
Qed.

(** X3.  [time_unit_input] asks until a line is "d", "w" or "y" up to
    case: it writes the request, the prompt and the error for each line
    it refuses, returns the first accepted line in lower case, and
    leaves what follows it unread. *)
Theorem time_unit_input_skips_invalid
    (fuel : nat) (bad : list string) (good : string) (rest : list string)
    (scr : list event) :
  Forall unknown_unit bad -> ~ unknown_unit good ->
  (List.length bad < fuel)%nat ->
  time_unit_input fuel {| stdin := bad ++ good :: rest; screen := scr |}
  = (Done (VStr (lower good)),
     {| stdin := rest;
        screen := scr ++ flat_map (fun _ => time_unit_refused) bad
                  ++ time_unit_asked |}).
Proof.
  intros. unfold time_unit_input.
  now apply time_unit_input_loop_skips.
Qed.

Lemma time_unit_input_skips_invalid_witness :
  time_unit_input 3
    {| stdin := ["month"%string; ""%string] ++ "W"%string :: ["5"%string];
       screen := [] |}
  = (Done (VStr (lower "W")),
     {| stdin := ["5"%string];
        screen := [] ++ flat_map (fun _ => time_unit_refused)
                          ["month"%string; ""%string]
                  ++ time_unit_asked |}).
Proof.
  apply (time_unit_input_skips_invalid 3 ["month"%string; ""%string] "W"
           ["5"%string] []).
  - repeat constructor.
  - unfold unknown_unit. discriminate.
  - cbn. repeat constructor.
Defined.

Lemma time_unit_input_loop_exhausted
    (fuel : nat) (unit0 : string) (bad : list string) (scr : list event) :
  py_in unit0 (map fst VALID_TIME_UNITS) = false ->
  Forall unknown_unit bad ->
  (List.length bad < fuel)%nat ->
  time_unit_input_loop fuel unit0 {| stdin := bad; screen := scr |}
  = (Failed EOFError,
     {| stdin := [];
        screen := scr ++ flat_map (fun _ => time_unit_refused) bad
                  ++ time_unit_asked |}).
Proof.
  intros H0 Hbad. revert unit0 H0 bad Hbad scr.
  induction fuel as [| fuel IH]; intros unit0 H0 bad Hbad scr Hlen;
    [inversion Hlen |].
  cbn [time_unit_input_loop]. rewrite H0. cbn [negb]. io_step.
  destruct bad as [| line bad].
  - cbn [flat_map app]. unfold time_unit_asked.
    rewrite <- app_assoc. reflexivity.
  - inversion Hbad as [| x l Hline Hbad' E]; subst.
    cbn [flat_map]. unfold unknown_unit in Hline. rewrite Hline.
    cbn [negb]. io_step.
    rewrite (IH (lower line) Hline bad Hbad');
      [| cbn [List.length] in Hlen; apply PeanoNat.lt_S_n; exact Hlen].
    unfold time_unit_refused. rewrite <- !app_assoc. reflexivity.
Qed.

(** The keys of the table, one by one. *)
Lemma known_unit_cases (k : string) :
  py_in k (map fst VALID_TIME_UNITS) = true ->
  k = "d"%string \/ k = "w"%string \/ k = "y"%string.
Proof.
  unfold py_in, VALID_TIME_UNITS. cbn [map fst existsb].
  destruct (String.eqb_spec k "d"); [auto |].
  destruct (String.eqb_spec k "w"); [auto |].
  destruct (String.eqb_spec k "y"); [auto |].
  discriminate.
Qed.

Lemma known_unit_divisor (k : string) :
  py_in k (map fst VALID_TIME_UNITS) = true ->
  exists (u : value) (x : R),
    time_unit_of (VStr k) = Ok u /\ as_real u = Some x /\ 0 < x.
Proof.
  intros H. destruct (known_unit_cases k H) as [-> | [-> | ->]].
  - exists DAYS_IN_YEAR, 365. repeat split; try reflexivity. lra.
  - exists WEEKS_IN_YEAR, (52 + 1 / 52). repeat split; try reflexivity. lra.
  - exists (VInt 1), 1. repeat split; try reflexivity. lra.
Qed.

Lemma time_unit_input_loop_valid
    (fuel : nat) (unit0 : string) (c c' : console) (v : value) :
  py_in unit0 (map fst VALID_TIME_UNITS) = false ->
  time_unit_input_loop fuel unit0 c = (Done v, c') ->
  exists k : string,
    v = VStr k /\ py_in k (map fst VALID_TIME_UNITS) = true.
Proof.
  revert unit0 c. induction fuel as [| fuel IH]; intros unit0 c H0;
    [discriminate |].
  cbn [time_unit_input_loop]. rewrite H0. cbn [negb]. io_step.
  destruct (stdin c) as [| line rest]; [discriminate |].
  destruct (py_in (lower line) (map fst VALID_TIME_UNITS)) eqn:Hline;
    cbn [negb]; io_step.
  - intros [= <- <-]. now exists (lower line).
  - intros H. exact (IH (lower line) _ Hline H).
Qed.

(** X4.  Whatever is typed, [time_unit_input] returns nothing but a key
    of [VALID_TIME_UNITS] (never [None], never a refused line): the
    look-up that follows it in [parameters_input] succeeds, and the
    divisor it finds is a number above zero. *)
Theorem time_unit_input_valid
    (fuel : nat) (c c' : console) (v : value) :
  time_unit_input fuel c = (Done v, c') ->
  exists (k : string) (u : value) (x : R),
    v = VStr k /\ time_unit_of v = Ok u /\ as_real u = Some x /\ 0 < x.
Proof.
  intros H.
  destruct (time_unit_input_loop_valid fuel "" c c' v eq_refl H)
    as (k & -> & Hk).
  destruct (known_unit_divisor k Hk) as (u & x & Hu & Hx & Hpos).
  now exists k, u, x.
Qed.

Lemma time_unit_input_valid_witness :
  exists (k : string) (u : value) (x : R),
    VStr (lower "Y") = VStr k /\ time_unit_of (VStr (lower "Y")) = Ok u
    /\ as_real u = Some x /\ 0 < x.
Proof.
  apply (time_unit_input_valid 1
           {| stdin := ["Y"%string]; screen := [] |}
           {| stdin := []; screen := time_unit_asked |}).
  reflexivity.
Defined.

(** X5.  When no line that is left is a time unit, [time_unit_input]
    refuses them all and ends with [EOFError]; it returns no unit. *)
Theorem time_unit_input_exhausted
    (fuel : nat) (bad : list string) (scr : list event) :
  Forall unknown_unit bad ->
  (List.length bad < fuel)%nat ->
  time_unit_input fuel {| stdin := bad; screen := scr |}
  = (Failed EOFError,
     {| stdin := [];
        screen := scr ++ flat_map (fun _ => time_unit_refused) bad
                  ++ time_unit_asked |}).
Proof.
  intros. unfold time_unit_input.
  now apply time_unit_input_loop_exhausted.
Qed.

Lemma time_unit_input_exhausted_witness :
  time_unit_input 2 {| stdin := ["days"%string]; screen := [] |}
  = (Failed EOFError,
     {| stdin := [];
        screen := [] ++ flat_map (fun _ => time_unit_refused)
                          ["days"%string]
                  ++ time_unit_asked |}).
Proof.
  apply (time_unit_input_exhausted 2 ["days"%string] []).
  - repeat constructor.
  - cbn. repeat constructor.
Defined.

(** X6.  Started on an answer other than "n", the inner loop of
    [main_loop] asks until a line is "y" or "n" up to case: it writes the
    prompt and the error for each line it refuses and returns the first
    accepted one in lower case, which is "y" or "n". *)
Theorem restart_loop_skips_invalid
    (fuel : nat) (restart : string) (bad : list string) (good : string)
    (rest : list string) (scr : list event) :
  restart <> "n"%string ->
  Forall unknown_answer bad -> ~ unknown_answer good ->
  (List.length bad < fuel)%nat ->
  restart_loop fuel restart
    {| stdin := bad ++ good :: rest; screen := scr |}
  = (Done (lower good),
     {| stdin := rest;
        screen := scr ++ flat_map (fun _ => restart_refused) bad
                  ++ [Prompted restart_prompt] |})
  /\ (lower good = "y"%string \/ lower good = "n"%string).
Proof.
  intros H0 Hbad Hgood Hlen. split.
  - revert restart H0 bad Hbad scr Hlen.
    induction fuel as [| fuel IH]; intros restart H0 bad Hbad scr Hlen;
      [inversion Hlen |].
    cbn [restart_loop].
    destruct (String.eqb_spec restart "n"); [contradiction |].
    cbn [negb]. io_step.
    destruct bad as [| line bad].
    + cbn [app flat_map]. unfold unknown_answer in Hgood.
      destruct (py_in (lower good) ["y"; "n"]%string);
        [| contradiction Hgood; reflexivity].
      io_step. reflexivity.
    + inversion Hbad as [| x l Hline Hbad' E]; subst.
      cbn [app flat_map]. unfold unknown_answer in Hline. rewrite Hline.
      io_step.
      assert (Hn : lower line <> "n"%string).
      { intros E. rewrite E in Hline. discriminate. }
      rewrite (IH (lower line) Hn bad Hbad');
        [| cbn [List.length] in Hlen; apply PeanoNat.lt_S_n; exact Hlen].
      unfold restart_refused. rewrite <- !app_assoc. reflexivity.
  - unfold unknown_answer, py_in in Hgood. cbn [existsb] in Hgood.
    destruct (String.eqb_spec (lower good) "y"); [auto |].
    destruct (String.eqb_spec (lower good) "n"); [auto |].
    contradiction Hgood. reflexivity.
Qed.

Lemma restart_loop_skips_invalid_witness :
  restart_loop 2 ""
    {| stdin := ["maybe"%string] ++ "N"%string :: []; screen := [] |}
  = (Done (lower "N"),
     {| stdin := [];
        screen := [] ++ flat_map (fun _ => restart_refused)
                          ["maybe"%string]
                  ++ [Prompted restart_prompt] |})
  /\ (lower "N" = "y"%string \/ lower "N" = "n"%string).
Proof.
  apply (restart_loop_skips_invalid 2 "" ["maybe"%string] "N" [] []).
  - discriminate.
  - repeat constructor.
  - unfold unknown_answer. discriminate.
  - cbn. repeat constructor.
Defined.

(** ** The front end: reading the parameters *)

Lemma dict_replace_same {A : Type} (d : dict A) (k : string) (a : A) :
  dict_get d k = Some a -> dict_replace d k a = d.
Proof.
  induction d as [| [k' a'] d IH]; [reflexivity |].
  cbn [dict_get dict_replace]. destruct (String.eqb k k').
  - now intros [= ->].
  - intros H. now rewrite IH.
Qed.

Lemma is_call_input_loop_inv
    (fuel : nat) (answer : string) (c c' : console) (v : value) :
  is_call_input_loop fuel answer c = (Done v, c') ->
  exists b : bool, v = VBool b.
Proof.
  revert c. induction fuel as [| fuel IH]; intros c; [discriminate |].
  cbn [is_call_input_loop].
  destruct (negb (py_in answer ["c"%string; "p"%string])).
  - io_step. apply IH.
  - destruct (String.eqb answer "c").
    + intros [= <- _]. now exists true.
    + destruct (String.eqb answer "p").
      * intros [= <- _]. now exists false.
      * apply IH.
Qed.

Lemma is_call_input_inv (fuel : nat) (c c' : console) (v : value) :
  is_call_input fuel c = (Done v, c') -> exists b : bool, v = VBool b.
Proof.
  unfold is_call_input. io_step.
  destruct (stdin c) as [| line rest]; [discriminate |].
  apply is_call_input_loop_inv.
Qed.

Lemma valid_time_unit_positive (key : string) (U : value) :
  dict_get VALID_TIME_UNITS key = Some U ->
  exists x : R, as_real U = Some x /\ 0 < x.
Proof.
  unfold VALID_TIME_UNITS. cbn [dict_get].
  destruct (String.eqb key "d");
    [intros [= <-]; exists 365; split; [reflexivity | lra] |].
  destruct (String.eqb key "w");
    [intros [= <-]; exists (52 + 1 / 52); split; [reflexivity | lra] |].
  destruct (String.eqb key "y");
    [intros [= <-]; exists 1; split; [reflexivity | lra] |].
  discriminate.
Qed.

Lemma valid_time_unit_known (line : string) (U : value) :
  dict_get VALID_TIME_UNITS (lower line) = Some U -> ~ unknown_unit line.
Proof.
  unfold unknown_unit, py_in, VALID_TIME_UNITS.
  cbn [dict_get map fst existsb].
  destruct (String.eqb (lower line) "d"); [discriminate |].
  destruct (String.eqb (lower line) "w"); [discriminate |].
  destruct (String.eqb (lower line) "y"); discriminate.
Qed.

Section FrontEndFacts.

Variable float : string -> option R.
Variable float_str : R -> string.

Lemma stored_none_or_float (line : string) :
  none_or_float (stored float line).
Proof.
  unfold stored, none_or_float. destruct (float line) as [x |]; eauto.
Qed.

(** The body of the loop on a numeric key: one line is read, once. *)
Lemma parameters_input_body_number
    (fuel : nat) (variable label line : string)
    (d : dict (list value)) (rest : list string) (scr : list event) :
  String.eqb variable "is_call" = false ->
  String.eqb variable "time_unit" = false ->
  dict_get d variable = Some [VStr label; VNone] ->
  parameters_input_body float float_str fuel variable d
    {| stdin := line :: rest; screen := scr |}
  = (Done (dict_replace d variable [VStr label; stored float line]),
     {| stdin := rest; screen := scr ++ asked float label line |}).
Proof.
  intros H1 H2 Hd. unfold parameters_input_body, asked, stored.
  rewrite H1, H2. unfold dict_setitem_at, dict_getitem. rewrite Hd.
  io_step. cbn [list_getitem nth_error py_str]. io_step.
  destruct (float line) as [x |].
  - cbn [bind ret result_monad list_setitem]. reflexivity.
  - io_step. rewrite (dict_replace_same d variable _ Hd).
    rewrite <- app_assoc. reflexivity.
Qed.

Lemma parameters_input_body_number_inv
    (fuel : nat) (variable label : string)
    (d d' : dict (list value)) (c c' : console) :
  String.eqb variable "is_call" = false ->
  String.eqb variable "time_unit" = false ->
  dict_get d variable = Some [VStr label; VNone] ->
  parameters_input_body float float_str fuel variable d c = (Done d', c') ->
  exists v : value,
    none_or_float v /\ d' = dict_replace d variable [VStr label; v].
Proof.
  intros H1 H2 Hd H. destruct c as [[| line rest] scr].
  - revert H. unfold parameters_input_body. rewrite H1, H2.
    unfold dict_getitem. rewrite Hd. io_step.
    cbn [list_getitem nth_error]. io_step. discriminate.
  - rewrite (parameters_input_body_number fuel variable label line d rest
               scr H1 H2 Hd) in H.
    injection H as <- _. exists (stored float line).
    split; [apply stored_none_or_float | reflexivity].
Qed.

Lemma parameters_input_body_time_unit
    (fuel : nat) (label : value) (old U : value) (line : string)
    (d : dict (list value)) (rest : list string) (scr : list event) :
  dict_get d "time_unit" = Some [label; old] ->
  dict_get VALID_TIME_UNITS (lower line) = Some U ->
  parameters_input_body float float_str (S fuel) "time_unit" d
    {| stdin := line :: rest; screen := scr |}
  = (Done (dict_replace d "time_unit" [label; U]),
     {| stdin := rest; screen := scr ++ time_unit_asked |}).
Proof.
  intros Hd HU. unfold parameters_input_body.
  cbn [String.eqb Ascii.eqb Bool.eqb andb]. cbn [bind io_monad].
  pose proof (time_unit_input_loop_skips (S fuel) "" [] line rest scr
                eq_refl (Forall_nil _) (valid_time_unit_known line U HU)
                (PeanoNat.Nat.lt_0_succ _)) as E.
  cbn [flat_map app] in E. unfold time_unit_input. rewrite E.
  unfold time_unit_of, dict_getitem. rewrite HU.
  io_step. unfold dict_setitem_at, dict_getitem. rewrite Hd.
  cbn [bind ret result_monad list_setitem]. reflexivity.
Qed.

Lemma parameters_input_body_time_unit_inv
    (fuel : nat) (label old : value)
    (d d' : dict (list value)) (c c' : console) :
  dict_get d "time_unit" = Some [label; old] ->
  parameters_input_body float float_str fuel "time_unit" d c
  = (Done d', c') ->
  exists (U : value) (x : R),
    as_real U = Some x /\ 0 < x
    /\ d' = dict_replace d "time_unit" [label; U].
Proof.
  intros Hd. unfold parameters_input_body.
  cbn [String.eqb Ascii.eqb Bool.eqb andb]. cbn [bind io_monad].
  unfold time_unit_input.
  destruct (time_unit_input_loop fuel "" c) as [[k | e |] c1] eqn:E;
    [| discriminate | discriminate].
  destruct (time_unit_input_loop_valid fuel "" c c1 k eq_refl E)
    as (key & -> & Hkey).
  destruct (known_unit_divisor key Hkey) as (U & x & HU & Hx & Hpos).
  rewrite HU. io_step. unfold dict_setitem_at, dict_getitem. rewrite Hd.
  cbn [bind ret result_monad list_setitem].
  intros [= <- _]. now exists U, x.
Qed.

Lemma parameters_input_body_is_call
    (fuel : nat) (label old : value) (line : string) (b : bool)
    (d : dict (list value)) (rest : list string) (scr : list event) :
  dict_get d "is_call" = Some [label; old] ->
  lower line = (if b then "c" else "p")%string ->
  parameters_input_body float float_str (S fuel) "is_call" d
    {| stdin := line :: rest; screen := scr |}
  = (Done (dict_replace d "is_call" [label; VBool b]),
     {| stdin := rest; screen := scr ++ [Prompted is_call_prompt] |}).
Proof.
  intros Hd Hb. unfold parameters_input_body.
  cbn [String.eqb Ascii.eqb Bool.eqb andb]. cbn [bind io_monad].
  unfold is_call_input. io_step. rewrite Hb.
  unfold dict_setitem_at, dict_getitem. rewrite Hd.
  destruct b; reflexivity.
Qed.

Lemma parameters_input_body_is_call_inv
    (fuel : nat) (label old : value)
    (d d' : dict (list value)) (c c' : console) :
  dict_get d "is_call" = Some [label; old] ->
  parameters_input_body float float_str fuel "is_call" d c
  = (Done d', c') ->
  exists b : bool, d' = dict_replace d "is_call" [label; VBool b].
Proof.
  intros Hd. unfold parameters_input_body.
  cbn [String.eqb Ascii.eqb Bool.eqb andb]. cbn [bind io_monad].
  destruct (is_call_input fuel c) as [[v | e |] c1] eqn:E;
    [| discriminate | discriminate].
  destruct (is_call_input_inv fuel c c1 v E) as [b ->].
  io_step. unfold dict_setitem_at, dict_getitem. rewrite Hd.
  cbn [bind ret result_monad list_setitem].
  intros [= <- _]. now exists b.
Qed.

(** The first six prompts: what is left to run is the call/put
    prompt. *)
Lemma parameters_input_six
    (fuel : nat) (s k u t v r : string) (rest : list string)
    (scr : list event) (U : value) :
  dict_get VALID_TIME_UNITS (lower u) = Some U ->
  parameters_input float float_str (S fuel)
    {| stdin := s :: k :: u :: t :: v :: r :: rest; screen := scr |}
  = parameters_input_loop float float_str (S fuel) ["is_call"%string]
      (prompted (stored float s) (stored float k) U (stored float t)
         (stored float v) (stored float r) VNone)
      {| stdin := rest;
         screen := scr ++ asked float "underlying asset price" s
                   ++ asked float "strike (price of exercise)" k
                   ++ time_unit_asked
                   ++ asked float "time to expiration" t
                   ++ asked float "volatility" v
                   ++ asked float "risk-free rate (discrete)" r |}.
Proof.
  intros HU. unfold parameters_input.
  cbn [map fst empty_parameters parameters_input_loop].
  cbn [bind ret io_monad].
  rewrite (parameters_input_body_number (S fuel) "underlying_price"
             "underlying asset price" s) by reflexivity.
  rewrite (parameters_input_body_number (S fuel) "strike"
             "strike (price of exercise)" k) by reflexivity.
  rewrite (parameters_input_body_time_unit fuel (VStr "time frame") VNone
             U u) by (reflexivity || exact HU).
  rewrite (parameters_input_body_number (S fuel) "time_to_expiration"
             "time to expiration" t) by reflexivity.
  rewrite (parameters_input_body_number (S fuel) "volatility"
             "volatility" v) by reflexivity.
  rewrite (parameters_input_body_number (S fuel) "rfree_discrete"
             "risk-free rate (discrete)" r) by reflexivity.
  rewrite <- !app_assoc. reflexivity.
Qed.

Lemma parameters_input_last
    (fuel : nat) (s k U t v r : value) (c : string) (b : bool)
    (rest : list string) (scr : list event) :
  lower c = (if b then "c" else "p")%string ->
  parameters_input_loop float float_str (S fuel) ["is_call"%string]
    (prompted s k U t v r VNone)
    {| stdin := c :: rest; screen := scr |}
  = (Done (prompted s k U t v r (VBool b)),
     {| stdin := rest; screen := scr ++ [Prompted is_call_prompt] |}).
Proof.
  intros Hb. cbn [parameters_input_loop]. cbn [bind ret io_monad].
  rewrite (parameters_input_body_is_call fuel
             (VStr "whether the option is a call (C)                                  or a put (P) ")
             VNone c b) by (reflexivity || exact Hb).
  reflexivity.
Qed.

(** X7.  Given seven lines, of which the third is a time unit and the
    seventh a call/put answer, [parameters_input] asks each parameter
    once, in the order of its dictionary, and returns the dictionary
    that holds, under each key, the label and what was read: the float
    of the line for a number ([None] when [float] rejects the line,
    after the error message, with no second try), the divisor of the
    unit, the boolean of the answer.  Lines after the seventh are left
    unread. *)
Theorem parameters_input_reads
    (fuel : nat) (s k u t v r c : string) (rest : list string)
    (scr : list event) (U : value) (b : bool) :
  dict_get VALID_TIME_UNITS (lower u) = Some U ->
  lower c = (if b then "c" else "p")%string ->
  parameters_input float float_str (S fuel)
    {| stdin := s :: k :: u :: t :: v :: r :: c :: rest; screen := scr |}
  = (Done (prompted (stored float s) (stored float k) U (stored float t)
             (stored float v) (stored float r) (VBool b)),
     {| stdin := rest;
        screen := scr ++ asked float "underlying asset price" s
                  ++ asked float "strike (price of exercise)" k
                  ++ time_unit_asked
                  ++ asked float "time to expiration" t
                  ++ asked float "volatility" v
                  ++ asked float "risk-free rate (discrete)" r
                  ++ [Prompted is_call_prompt] |}).
Proof.
  intros HU Hb.
  rewrite (parameters_input_six fuel s k u t v r (c :: rest) scr U HU).
  rewrite (parameters_input_last fuel _ _ _ _ _ _ c b rest _ Hb).
  rewrite <- !app_assoc. reflexivity.
Qed.

Lemma parameters_input_inv
    (fuel : nat) (c c' : console) (d : dict (list value)) :
  parameters_input float float_str fuel c = (Done d, c') ->
  exists (s k U t v r : value) (b : bool) (x : R),
    d = prompted s k U t v r (VBool b)
    /\ none_or_float s /\ none_or_float k /\ none_or_float t
    /\ none_or_float v /\ none_or_float r
    /\ as_real U = Some x /\ 0 < x.
Proof.
  unfold parameters_input.
  cbn [map fst empty_parameters parameters_input_loop].
  cbn [bind ret io_monad].
  destruct (parameters_input_body float float_str fuel "underlying_price"
              _ c) as [[d1 | e |] c1] eqn:E1; try discriminate.
  apply (parameters_input_body_number_inv fuel "underlying_price"
           "underlying asset price") in E1;
    [| reflexivity ..].
  destruct E1 as (s & Hs & ->).
  destruct (parameters_input_body float float_str fuel "strike" _ c1)
    as [[d2 | e |] c2] eqn:E2; try discriminate.
  apply (parameters_input_body_number_inv fuel "strike"
           "strike (price of exercise)") in E2;
    [| reflexivity ..].
  destruct E2 as (k & Hk & ->).
  destruct (parameters_input_body float float_str fuel "time_unit" _ c2)
    as [[d3 | e |] c3] eqn:E3; try discriminate.
  apply (parameters_input_body_time_unit_inv fuel (VStr "time frame") VNone)
    in E3; [| reflexivity].
  destruct E3 as (U & x & HU & Hx & ->).
  destruct (parameters_input_body float float_str fuel
              "time_to_expiration" _ c3)
    as [[d4 | e |] c4] eqn:E4; try discriminate.
  apply (parameters_input_body_number_inv fuel "time_to_expiration"
           "time to expiration") in E4;
    [| reflexivity ..].
  destruct E4 as (t & Ht & ->).
  destruct (parameters_input_body float float_str fuel "volatility" _ c4)
    as [[d5 | e |] c5] eqn:E5; try discriminate.
  apply (parameters_input_body_number_inv fuel "volatility"
           "volatility") in E5;
    [| reflexivity ..].
  destruct E5 as (v & Hv & ->).
  destruct (parameters_input_body float float_str fuel "rfree_discrete"
              _ c5)
    as [[d6 | e |] c6] eqn:E6; try discriminate.
  apply (parameters_input_body_number_inv fuel "rfree_discrete"
           "risk-free rate (discrete)") in E6;
    [| reflexivity ..].
  destruct E6 as (r & Hr & ->).
  destruct (parameters_input_body float float_str fuel "is_call" _ c6)
    as [[d7 | e |] c7] eqn:E7; try discriminate.
  apply (parameters_input_body_is_call_inv fuel
           (VStr "whether the option is a call (C)                                  or a put (P) ")
           VNone) in E7; [| reflexivity].
  destruct E7 as (b & ->).
  intros [= <- _].
  exists s, k, U, t, v, r, b, x. repeat split; auto.
Qed.

(** X8.  Whatever is typed, a dictionary that [parameters_input] returns
    has the seven keys with their labels, a boolean under "is_call", a
    divisor of [VALID_TIME_UNITS] (a number above zero) under
    "time_unit", and under each of the five numeric keys a float or the
    [None] left by a rejected line. *)
Theorem parameters_input_shape
    (fuel : nat) (c c' : console) (d : dict (list value)) :
  parameters_input float float_str fuel c = (Done d, c') ->
  exists (s k U t v r : value) (b : bool) (x : R),
    d = prompted s k U t v r (VBool b)
    /\ none_or_float s /\ none_or_float k /\ none_or_float t
    /\ none_or_float v /\ none_or_float r
    /\ as_real U = Some x /\ 0 < x.
Proof.
  exact (parameters_input_inv fuel c c' d).
Qed.

End FrontEndFacts.

Lemma parameters_input_reads_witness :
  parameters_input decimal_float unrendered 1
    {| stdin := ["100"; "abc"; "W"; "30"; "1"; "0"; "P"; "n"]%string;
       screen := [] |}
  = (Done (prompted (stored decimal_float "100")
             (stored decimal_float "abc") WEEKS_IN_YEAR
             (stored decimal_float "30") (stored decimal_float "1")
             (stored decimal_float "0") (VBool false)),
     {| stdin := ["n"%string];
        screen := [] ++ asked decimal_float "underlying asset price" "100"
                  ++ asked decimal_float "strike (price of exercise)" "abc"
                  ++ time_unit_asked
                  ++ asked decimal_float "time to expiration" "30"
                  ++ asked decimal_float "volatility" "1"
                  ++ asked decimal_float "risk-free rate (discrete)" "0"
                  ++ [Prompted is_call_prompt] |}).
Proof.
  apply (parameters_input_reads decimal_float unrendered 0 "100" "abc" "W"
           "30" "1" "0" "P" ["n"%string] [] WEEKS_IN_YEAR false);
    reflexivity.
Defined.

Lemma parameters_input_shape_witness :
  exists (s k U t v r : value) (b : bool) (x : R),
    prompted (VFloat 100) VNone WEEKS_IN_YEAR (VFloat 30) (VFloat 1)
      (VFloat 0) (VBool false)
    = prompted s k U t v r (VBool b)
    /\ none_or_float s /\ none_or_float k /\ none_or_float t
    /\ none_or_float v /\ none_or_float r
    /\ as_real U = Some x /\ 0 < x.
Proof.
  apply (parameters_input_shape decimal_float unrendered 1
           {| stdin := ["100"; "abc"; "W"; "30"; "1"; "0"; "P"; "n"]%string;
              screen := [] |}
           {| stdin := ["n"%string];
              screen := asked decimal_float "underlying asset price" "100"
                        ++ asked decimal_float "strike (price of exercise)"
                             "abc"
                        ++ time_unit_asked
                        ++ asked decimal_float "time to expiration" "30"
                        ++ asked decimal_float "volatility" "1"
                        ++ asked decimal_float "risk-free rate (discrete)"
                             "0"
                        ++ [Prompted is_call_prompt] |}).
  reflexivity.
Defined.

(** ** The front end: building and pricing *)

(** Where [pricer_BS] raises. *)
Lemma pricer_BS_type_error (o : Option) (out : list string) :
  as_real (underlying_price o) = None
  \/ as_real (strike o) = None
  \/ (as_real (strike o) <> Some 0 /\ as_real (volatility o) = None) ->
  pricer_BS {| self := o; stdout := out |}
  = (Raise TypeError, {| self := o; stdout := out |}).
Proof.
  intros H. unfold pricer_BS. method_step.
  destruct (as_real (underlying_price o)) as [S |]; [| reflexivity].
  destruct (as_real (strike o)) as [K |]; [| reflexivity].
  destruct H as [H | [H | [HK Hv]]]; try discriminate.
  destruct (Req_dec_T K 0) as [-> | _]; [contradiction HK; reflexivity |].
  method_step. rewrite Hv. reflexivity.
Qed.

Lemma pricer_BS_zero_division (o : Option) (out : list string) (S : R) :
  as_real (underlying_price o) = Some S ->
  as_real (strike o) = Some 0 ->
  pricer_BS {| self := o; stdout := out |}
  = (Raise ZeroDivisionError, {| self := o; stdout := out |}).
Proof.
  intros HS HK. unfold pricer_BS. method_step. rewrite HS, HK.
  destruct (Req_dec_T 0 0) as [_ | H]; [reflexivity | contradiction H].
  reflexivity.
Qed.



Lemma call_pricer_BS_outcome (o : Option) (c : console) :
  fst (call_pricer_BS o c)
  = match fst (pricer_BS {| self := o; stdout := [] |}) with
    | Ok v => Done v
    | Raise e => Failed (Uncaught e)
    end.
Proof.
  unfold call_pricer_BS.
  destruct (pricer_BS {| self := o; stdout := [] |}) as [r w].
  reflexivity.
Qed.

Section Building.

Variable float : string -> option R.
Variable float_str : R -> string.

(** X10.  The constructor applied to a dictionary that [parameters_input]
    returned either builds the contract or raises [TypeError]; it never
    raises [ZeroDivisionError], [KeyError] or [IndexError] there.  It
    builds the contract when the time to expiration and the rate were
    read as floats: the flag of the contract is then a boolean, its time
    unit a number above zero, its time the quotient.  It raises when one
    of the two lines was rejected by [float] and [None] is left in the
    dictionary. *)
Theorem construction_from_prompts
    (fuel : nat) (c c' : console) (d : dict (list value)) :
  parameters_input float float_str fuel c = (Done d, c') ->
  exists (s k U t v r : value) (b : bool) (ux : R),
    d = prompted s k U t v r (VBool b)
    /\ as_real U = Some ux /\ 0 < ux
    /\ ((exists (tx rx : R) (o : Option),
           t = VFloat tx /\ r = VFloat rx
           /\ __init__ (parameters d) = Ok o
           /\ is_call o = VBool b /\ underlying_price o = s
           /\ strike o = k /\ volatility o = v
           /\ time_unit o = U /\ time_to_expiration o = tx / ux
           /\ rfree_discrete o = r
           /\ (-1 < rx -> rfree_continuous o = ln (1 + rx)))
        \/ ((t = VNone \/ r = VNone)
            /\ __init__ (parameters d) = Raise TypeError)).
Proof.
  intros H.
  destruct (parameters_input_inv float float_str fuel c c' d H)
    as (s & k & U & t & v & r & b & ux & -> & Hs & Hk & Ht & Hv & Hr
        & HU & Hux).
  exists s, k, U, t, v, r, b, ux. repeat (split; [assumption || reflexivity |]).
  rewrite init_prompted.
  destruct Ht as [-> | [tx ->]].
  - right. split; [now left |].
    unfold __init__, keywords, py_truediv.
    cbn [arg_option_parameters arg_time_to_expiration arg_time_unit as_real
         bind ret result_monad]. reflexivity.
  - destruct Hr as [-> | [rx ->]].
    + right. split; [now right |].
      unfold __init__, keywords.
      cbn [arg_option_parameters arg_time_to_expiration arg_time_unit
           arg_rfree_discrete].
      rewrite (py_truediv_ok (VFloat tx) U tx ux eq_refl HU) by lra.
      reflexivity.
    + left. exists tx, rx. eexists.
      split; [reflexivity |]. split; [reflexivity |].
      split; [apply (init_keywords _ _ _ _ _ _ _ tx ux rx); auto; lra |].
      cbn [is_call underlying_price strike volatility time_unit
           time_to_expiration rfree_discrete rfree_continuous].
      repeat split; reflexivity.
Qed.


End Building.

(** The dictionary read from the lines of the at-the-money call, and the
    contract built from it. *)
Lemma at_the_money_prompted :
  parameters_input decimal_float unrendered 1
    {| stdin := ["100"; "100"; "y"; "1"; "1"; "0"; "C"]%string;
       screen := [] |}
  = (Done (prompted (VFloat 100) (VFloat 100) (VInt 1) (VFloat 1)
             (VFloat 1) (VFloat 0) (VBool true)),
     {| stdin := []; screen := prompts_screen |}).
Proof. reflexivity. Qed.


Lemma construction_from_prompts_witness :
  exists (s k U t v r : value) (b : bool) (ux : R),
    prompted (VFloat 100) (VFloat 100) (VInt 1) (VFloat 1) (VFloat 1)
      (VFloat 0) (VBool true)
    = prompted s k U t v r (VBool b)
    /\ as_real U = Some ux /\ 0 < ux
    /\ ((exists (tx rx : R) (o : Option),
           t = VFloat tx /\ r = VFloat rx
           /\ __init__ (parameters
                          (prompted (VFloat 100) (VFloat 100) (VInt 1)
                             (VFloat 1) (VFloat 1) (VFloat 0)
                             (VBool true)))
              = Ok o
           /\ is_call o = VBool b /\ underlying_price o = s
           /\ strike o = k /\ volatility o = v
           /\ time_unit o = U /\ time_to_expiration o = tx / ux
           /\ rfree_discrete o = r
           /\ (-1 < rx -> rfree_continuous o = ln (1 + rx)))
        \/ ((t = VNone \/ r = VNone)
            /\ __init__ (parameters
                           (prompted (VFloat 100) (VFloat 100) (VInt 1)
                              (VFloat 1) (VFloat 1) (VFloat 0)
                              (VBool true)))
               = Raise TypeError)).
Proof.
  apply (construction_from_prompts decimal_float unrendered 1
           {| stdin := ["100"; "100"; "y"; "1"; "1"; "0"; "C"]%string;
              screen := [] |}
           {| stdin := []; screen := prompts_screen |}).
  reflexivity.
Defined.


(** ** The front end: the main loop *)

Section MainLoop.

Variable float : string -> option R.
Variable float_str : R -> string.

(** One round of the loop on lines that read as an option. *)
Lemma main_loop_round_run
    (fuel : nat) (restart : string) (a : answers) (q : quote)
    (rest : list string) (scr : list event) :
  restart <> "n"%string ->
  reads float a q -> q_strike q <> 0 ->
  py_in (lower (restart_line a)) ["y"; "n"]%string = true ->
  main_loop_round float float_str (S fuel) restart
    {| stdin := typed a ++ rest; screen := scr |}
  = (Done (lower (restart_line a)),
     {| stdin := rest; screen := scr ++ round_screen float_str q |}).
Proof.
  intros Hr (Hs & Hk & (U & HU & Hux) & Ht & Hv & Hrd & Hc) HK Ha.
  destruct a as [s k u t v r c ans]; destruct q as [b S K ux T sigma rd].
  cbn [underlying_price_line strike_line time_unit_line
       time_to_expiration_line volatility_line rfree_discrete_line
       is_call_line restart_line q_is_call q_underlying_price q_strike
       q_time_unit q_time_to_expiration q_volatility q_rfree_discrete] in *.
  destruct (valid_time_unit_positive _ _ HU) as (x & Hx & Hpos).
  assert (x = ux) by congruence. subst x.
  unfold main_loop_round, typed.
  cbn [underlying_price_line strike_line time_unit_line
       time_to_expiration_line volatility_line rfree_discrete_line
       is_call_line restart_line app].
  cbn [bind io_monad].
  rewrite (parameters_input_six float float_str fuel s k u t v r
             (c :: ans :: rest) scr U HU).
  rewrite (parameters_input_last float float_str fuel _ _ _ _ _ _ c b
             (ans :: rest) _ Hc).
  unfold stored, asked. rewrite Hs, Hk, Ht, Hv, Hrd.
  rewrite init_prompted.
  rewrite (init_keywords (VBool b) (VFloat S) U (VFloat T) (VFloat K)
             (VFloat rd) (VFloat sigma) T ux rd eq_refl Hux
             (Rgt_not_eq _ _ Hpos) eq_refl).
  io_step. unfold call_pricer_BS.
  rewrite (pricer_BS_run _ [] S K sigma) by (reflexivity || exact HK).
  cbv zeta.
  cbn [is_call is_True is_False time_to_expiration rfree_continuous].
  destruct b; cbn [is_True is_False stdout map py_str]; io_step;
    cbn [restart_loop];
    (destruct (String.eqb_spec restart "n"); [contradiction |]);
    cbn [negb]; io_step; rewrite Ha;
    unfold round_screen, quoted_price, prompts_screen, time_unit_asked;
    cbn [q_is_call q_underlying_price q_strike q_time_unit
         q_time_to_expiration q_volatility q_rfree_discrete];
    rewrite ?app_nil_r, <- ?app_assoc; reflexivity.
Qed.

Lemma main_loop_rounds_session
    (session : list (answers * quote)) (fuel : nat) (restart : string)
    (rest : list string) (scr : list event) :
  restart <> "n"%string ->
  Forall (fun aq => reads float (fst aq) (snd aq) /\ in_domain (snd aq))
    session ->
  stops_at_last session ->
  (List.length session < fuel)%nat ->
  main_loop_rounds float float_str fuel restart
    {| stdin := flat_map (fun aq => typed (fst aq)) session ++ rest;
       screen := scr |}
  = (Done tt,
     {| stdin := rest;
        screen := scr ++ flat_map (fun aq => round_screen float_str (snd aq))
                           session |}).
Proof.
  revert fuel restart scr.
  induction session as [| [a q] session IH]; intros fuel restart scr Hr Hall
    Hstop Hlen; [contradiction |].
  destruct fuel as [| fuel]; [inversion Hlen |].
  inversion Hall as [| x l [Hreads Hdom] Hall' E]; subst.
  cbn [fst snd] in Hreads, Hdom.
  assert (HK : q_strike q <> 0).
  { destruct Hdom as (_ & HK & _). apply Rgt_not_eq. exact HK. }
  cbn [main_loop_rounds].
  destruct (String.eqb_spec restart "n"); [contradiction |].
  cbn [negb flat_map fst snd]. cbn [bind io_monad].
  rewrite <- app_assoc.
  destruct session as [| aq session].
  - cbn [stops_at_last] in Hstop.
    rewrite (main_loop_round_run fuel restart a q _ scr Hr Hreads HK)
      by (rewrite Hstop; reflexivity).
    rewrite Hstop. destruct fuel as [| fuel].
    + cbn [List.length] in Hlen. apply PeanoNat.lt_S_n in Hlen.
      inversion Hlen.
    + cbn [flat_map app]. rewrite app_nil_r. reflexivity.
  - assert (Hy : lower (restart_line a) = "y"%string
                 /\ stops_at_last (aq :: session)).
    { destruct aq. exact Hstop. }
    destruct Hy as [Hy Hstop'].
    rewrite (main_loop_round_run fuel restart a q _ scr Hr Hreads HK)
      by (rewrite Hy; reflexivity).
    rewrite Hy.
    rewrite (IH fuel "y"%string _); try assumption;
      [| discriminate
       | cbn [List.length] in Hlen |- *; apply PeanoNat.lt_S_n; exact Hlen].
    rewrite <- app_assoc. reflexivity.
Qed.


(** The first round up to the call/put prompt. *)
Lemma main_loop_first_prompts
    (fuel : nat) (s k u t v r : string) (rest : list string)
    (scr : list event) (U : value) :
  dict_get VALID_TIME_UNITS (lower u) = Some U ->
  main_loop float float_str (S fuel)
    {| stdin := s :: k :: u :: t :: v :: r :: rest; screen := scr |}
  = (restart <-
       (d <- parameters_input_loop float float_str (S fuel)
               ["is_call"%string]
               (prompted (stored float s) (stored float k) U
                  (stored float t) (stored float v) (stored float r)
                  VNone) ;;
        NewOption <- raise_from (__init__ (parameters d)) ;;
        io_print "-------------------------" ;;
        price <- call_pricer_BS NewOption ;;
        io_print ("Option Price: " ++ py_str float_str price) ;;
        io_print (nl ++ " " ++ nl) ;;
        restart_loop (S fuel) "") ;;
     main_loop_rounds float float_str fuel restart)
      {| stdin := rest;
         screen := (scr ++ boot_screen float_str)
                   ++ asked float "underlying asset price" s
                   ++ asked float "strike (price of exercise)" k
                   ++ time_unit_asked
                   ++ asked float "time to expiration" t
                   ++ asked float "volatility" v
                   ++ asked float "risk-free rate (discrete)" r |}.
Proof.
  intros HU. unfold main_loop, boot_menu. io_step.
  cbn [py_str VERSION main_loop_rounds String.eqb negb].
  unfold main_loop_round. cbn [bind io_monad].
  rewrite (parameters_input_six float float_str fuel s k u t v r rest _ U
             HU).
  unfold boot_screen. rewrite <- !app_assoc. reflexivity.
Qed.

(** X13.  When the line typed at the call/put prompt of the first round
    is neither "c" nor "p" (up to case), [main_loop] never returns and
    never fails: whatever the number of turns its loops are given, it is
    still running. *)
Theorem main_loop_hangs
    (fuel : nat) (s k u t v r c : string) (rest : list string)
    (scr : list event) (U : value) :
  dict_get VALID_TIME_UNITS (lower u) = Some U ->
  lower c <> "c"%string -> lower c <> "p"%string ->
  fst (main_loop float float_str fuel
         {| stdin := s :: k :: u :: t :: v :: r :: c :: rest;
            screen := scr |})
  = OutOfFuel.
Proof.
  intros HU Hc Hp. destruct fuel as [| fuel]; [reflexivity |].
  rewrite (main_loop_first_prompts fuel s k u t v r (c :: rest) scr U HU).
  cbn [parameters_input_loop]. unfold parameters_input_body.
  cbn [String.eqb Ascii.eqb Bool.eqb andb]. cbn [bind io_monad].
  unfold is_call_input. io_step.
  rewrite (is_call_input_loop_hangs (S fuel) (lower c) _ Hc Hp).
  reflexivity.
Qed.

(** X14.  A number that [float] rejects is not asked again, and the
    [None] it leaves ends the program: when the line of the time to
    expiration, of the rate, of the underlying price or of the strike is
    rejected in the first round, or that of the volatility with a strike
    other than zero, [main_loop] ends with an uncaught [TypeError]. *)
Theorem main_loop_rejected_number
    (fuel : nat) (s k u t v r c : string) (rest : list string)
    (scr : list event) (U : value) (b : bool) :
  dict_get VALID_TIME_UNITS (lower u) = Some U ->
  lower c = (if b then "c" else "p")%string ->
  float t = None \/ float r = None \/ float s = None \/ float k = None
  \/ (float v = None /\ float k <> Some 0) ->
  fst (main_loop float float_str (S fuel)
         {| stdin := s :: k :: u :: t :: v :: r :: c :: rest;
            screen := scr |})
  = Failed (Uncaught TypeError).
Proof.
  intros HU Hc H.
  destruct (valid_time_unit_positive _ _ HU) as (ux & Hux & Hpos).
  rewrite (main_loop_first_prompts fuel s k u t v r (c :: rest) scr U HU).
  cbn [bind io_monad].
  rewrite (parameters_input_last float float_str fuel _ _ _ _ _ _ c b rest
             _ Hc).
  rewrite init_prompted.
  destruct (float t) as [tx |] eqn:Et.
  2:{ assert (E : stored float t = VNone)
        by (unfold stored; now rewrite Et).
      rewrite E. unfold __init__, keywords, py_truediv.
      cbn [arg_option_parameters arg_time_to_expiration arg_time_unit
           as_real bind ret result_monad].
      reflexivity. }
  assert (Est : stored float t = VFloat tx)
    by (unfold stored; now rewrite Et).
  destruct (float r) as [rx |] eqn:Er.
  2:{ assert (E : stored float r = VNone)
        by (unfold stored; now rewrite Er).
      rewrite E, Est. unfold __init__, keywords.
      cbn [arg_option_parameters arg_time_to_expiration arg_time_unit
           arg_rfree_discrete].
      rewrite (py_truediv_ok (VFloat tx) U tx ux eq_refl Hux) by lra.
      reflexivity. }
  assert (Esr : stored float r = VFloat rx)
    by (unfold stored; now rewrite Er).
  rewrite (init_keywords (VBool b) (stored float s) U (stored float t)
             (stored float k) (stored float r) (stored float v) tx ux rx)
    by (rewrite ?Est, ?Esr; auto; lra).
  io_step. unfold call_pricer_BS.
  rewrite pricer_BS_type_error; [reflexivity |].
  cbn [underlying_price strike volatility]. unfold stored.
  destruct H as [H | [H | [H | [H | [Hv Hk]]]]]; try discriminate.
  - left. now rewrite H.
  - right. left. now rewrite H.
  - right. right. rewrite Hv. split; [| reflexivity].
    destruct (float k) as [K |]; [| discriminate].
    intros [= ->]. contradiction Hk. reflexivity.
Qed.

(** X15.  A strike typed as zero is accepted by [parameters_input] and
    by the constructor, and ends the program at the pricing: when the
    other lines of the first round are read, [main_loop] ends with an
    uncaught [ZeroDivisionError]. *)
Theorem main_loop_zero_strike
    (fuel : nat) (s k u t v r c : string) (rest : list string)
    (scr : list event) (U : value) (b : bool) (S T rd : R) :
  dict_get VALID_TIME_UNITS (lower u) = Some U ->
  lower c = (if b then "c" else "p")%string ->
  float s = Some S -> float k = Some 0 -> float t = Some T ->
  float r = Some rd ->
  fst (main_loop float float_str (Datatypes.S fuel)
         {| stdin := s :: k :: u :: t :: v :: r :: c :: rest;
            screen := scr |})
  = Failed (Uncaught ZeroDivisionError).
Proof.
  intros HU Hc Hs Hk Ht Hr.
  destruct (valid_time_unit_positive _ _ HU) as (ux & Hux & Hpos).
  rewrite (main_loop_first_prompts fuel s k u t v r (c :: rest) scr U HU).
  cbn [bind io_monad].
  rewrite (parameters_input_last float float_str fuel _ _ _ _ _ _ c b rest
             _ Hc).
  rewrite init_prompted.
  rewrite (init_keywords (VBool b) (stored float s) U (stored float t)
             (stored float k) (stored float r) (stored float v) T ux rd)
    by (unfold stored; rewrite ?Ht, ?Hr; auto; lra).
  io_step. unfold call_pricer_BS.
  rewrite (pricer_BS_zero_division _ [] S);
    [reflexivity | |];
    cbn [underlying_price strike]; unfold stored;
    rewrite ?Hs, ?Hk; reflexivity.
Qed.

End MainLoop.

Lemma at_the_money_reads (b : bool) (c restart : string) :
  lower c = (if b then "c" else "p")%string ->
  reads decimal_float (at_the_money_lines c restart) (at_the_money b)
  /\ in_domain (at_the_money b).
Proof.
  intros Hc. split.
  - unfold reads. repeat split; try reflexivity; [| exact Hc].
    exists (VInt 1). split; reflexivity.
  - unfold in_domain, at_the_money.
    cbn [q_underlying_price q_strike q_time_to_expiration q_volatility
         q_rfree_discrete].
    repeat split; lra.
Qed.


Lemma main_loop_hangs_witness :
  fst (main_loop decimal_float unrendered 5
         {| stdin := ["100"; "100"; "y"; "1"; "1"; "0"; "call"; "c"]%string;
            screen := [] |})
  = OutOfFuel.
Proof.
  apply (main_loop_hangs decimal_float unrendered 5 "100" "100" "y" "1" "1"
           "0" "call" ["c"%string] [] (VInt 1));
    [reflexivity | discriminate | discriminate].
Defined.

Lemma main_loop_rejected_number_witness :
  fst (main_loop decimal_float unrendered 1
         {| stdin := ["100"; "100"; "y"; "1"; "abc"; "0"; "c"]%string;
            screen := [] |})
  = Failed (Uncaught TypeError).
Proof.
  apply (main_loop_rejected_number decimal_float unrendered 0 "100" "100"
           "y" "1" "abc" "0" "c" [] [] (VInt 1) true);
    [reflexivity | reflexivity |].
  right. right. right. right. split; [reflexivity |].
  change (decimal_float "100") with (Some 100).
  intros [= H]. lra.
Defined.

Lemma main_loop_zero_strike_witness :
  fst (main_loop decimal_float unrendered 1
         {| stdin := ["100"; "0"; "y"; "1"; "1"; "0"; "c"]%string;
            screen := [] |})
  = Failed (Uncaught ZeroDivisionError).
Proof.
  apply (main_loop_zero_strike decimal_float unrendered 0 "100" "0" "y" "1"
           "1" "0" "c" [] [] (VInt 1) true 100 1 0);
    reflexivity.
Defined.

(** ** The front end: what a return of [main_loop] has read *)

Lemma bind_done {A B : Type} (m : io A) (k : A -> io B) (c c' : console)
    (b : B) :
  bind m k c = (Done b, c') ->
  exists (a : A) (c1 : console), m c = (Done a, c1) /\ k a c1 = (Done b, c').
Proof.
  cbn [bind io_monad]. destruct (m c) as [[a | e |] c1]; try discriminate.
  intros H. now exists a, c1.
Qed.

Lemma forward_ret {A : Type} (a : A) : forward (ret a).
Proof. intros c a' c' [= _ <-]. now exists []. Qed.

Lemma forward_bind {A B : Type} (m : io A) (k : A -> io B) :
  forward m -> (forall a, forward (k a)) -> forward (bind m k).
Proof.
  intros Hm Hk c b c' H.
  destruct (bind_done m k c c' b H) as (a & c1 & H1 & H2).
  destruct (Hm c a c1 H1) as [pre1 E1].
  destruct (Hk a c1 b c' H2) as [pre2 E2].
  exists (pre1 ++ pre2). rewrite E1, E2. now rewrite app_assoc.
Qed.

Lemma forward_out_of_fuel {A : Type} : forward (@out_of_fuel A).
Proof. intros c a c'. discriminate. Qed.

Lemma forward_io_print (s : string) : forward (io_print s).
Proof. intros c a c' [= _ <-]. now exists []. Qed.

Lemma forward_input (prompt : string) : forward (input prompt).
Proof.
  intros c a c'. unfold input.
  destruct (stdin c) as [| line rest]; [discriminate |].
  intros [= _ <-]. now exists [line].
Qed.

Lemma forward_raise_from {A : Type} (r : result A) : forward (raise_from r).
Proof.
  intros c a c'. unfold raise_from. destruct r; [| discriminate].
  intros [= _ <-]. now exists [].
Qed.

Lemma forward_call_pricer_BS (o : Option) : forward (call_pricer_BS o).
Proof.
  intros c a c'. unfold call_pricer_BS.
  destruct (pricer_BS {| self := o; stdout := [] |}) as [[v | e] w];
    [| discriminate].
  intros [= _ <-]. now exists [].
Qed.

Lemma forward_is_call_input_loop (fuel : nat) (answer : string) :
  forward (is_call_input_loop fuel answer).
Proof.
  induction fuel as [| fuel IH]; [apply forward_out_of_fuel |].
  cbn [is_call_input_loop].
  destruct (negb (py_in answer ["c"%string; "p"%string])).
  - apply forward_bind; [apply forward_io_print | intros _; exact IH].
  - destruct (String.eqb answer "c"); [apply forward_ret |].
    destruct (String.eqb answer "p"); [apply forward_ret | exact IH].
Qed.

Lemma forward_is_call_input (fuel : nat) : forward (is_call_input fuel).
Proof.
  apply forward_bind; [apply forward_input |].
  intros line. apply forward_is_call_input_loop.
Qed.

Lemma forward_time_unit_input_loop (fuel : nat) (unit0 : string) :
  forward (time_unit_input_loop fuel unit0).
Proof.
  revert unit0. induction fuel as [| fuel IH]; intros unit0;
    [apply forward_out_of_fuel |].
  cbn [time_unit_input_loop].
  destruct (negb (py_in unit0 (map fst VALID_TIME_UNITS)));
    [| apply forward_ret].
  apply forward_bind; [apply forward_io_print | intros _].
  apply forward_bind; [apply forward_input | intros line].
  destruct (negb (py_in (lower line) (map fst VALID_TIME_UNITS)));
    [| apply forward_ret].
  apply forward_bind; [apply forward_io_print | intros _; apply IH].
Qed.

(** The inner loop of [main_loop] returns the last line it read, in
    lower case. *)
Lemma restart_loop_last (fuel : nat) (restart : string) (c c' : console)
    (r : string) :
  restart <> "n"%string ->
  restart_loop fuel restart c = (Done r, c') ->
  exists (before : list string) (line : string),
    stdin c = before ++ line :: stdin c' /\ lower line = r.
Proof.
  revert restart c. induction fuel as [| fuel IH]; intros restart c Hr;
    [discriminate |].
  cbn [restart_loop].
  destruct (String.eqb_spec restart "n"); [contradiction |].
  cbn [negb]. io_step.
  destruct (stdin c) as [| line rest] eqn:E; [discriminate |].
  destruct (py_in (lower line) ["y"%string; "n"%string]) eqn:Hin.
  - intros [= <- <-]. now exists [], line.
  - io_step. intros H.
    assert (Hn : lower line <> "n"%string).
    { intros En. rewrite En in Hin. discriminate. }
    destruct (IH (lower line) _ Hn H) as (pre & line' & E' & Hl).
    cbn [stdin] in E'. exists (line :: pre), line'.
    rewrite E'. split; [reflexivity | exact Hl].
Qed.

Section Returns.

Variable float : string -> option R.
Variable float_str : R -> string.

Lemma forward_parameters_input_body
    (fuel : nat) (variable : string) (d : dict (list value)) :
  forward (parameters_input_body float float_str fuel variable d).
Proof.
  unfold parameters_input_body.
  destruct (String.eqb variable "is_call").
  { apply forward_bind; [apply forward_is_call_input |].
    intros v. apply forward_raise_from. }
  destruct (String.eqb variable "time_unit").
  { apply forward_bind; [apply forward_time_unit_input_loop |].
    intros k. apply forward_bind; [apply forward_raise_from |].
    intros u. apply forward_raise_from. }
  apply forward_bind; [apply forward_raise_from | intros entry].
  apply forward_bind; [apply forward_raise_from | intros label].
  apply forward_bind; [apply forward_input | intros line].
  destruct (float line); [apply forward_raise_from |].
  apply forward_bind; [apply forward_io_print | intros _].
  apply forward_ret.
Qed.

Lemma forward_parameters_input_loop
    (fuel : nat) (variables : list string) (d : dict (list value)) :
  forward (parameters_input_loop float float_str fuel variables d).
Proof.
  revert d. induction variables as [| variable rest IH]; intros d;
    [apply forward_ret |].
  cbn [parameters_input_loop].
  apply forward_bind; [apply forward_parameters_input_body | exact IH].
Qed.

Lemma main_loop_round_last
    (fuel : nat) (restart : string) (c c' : console) (r : string) :
  restart <> "n"%string ->
  main_loop_round float float_str fuel restart c = (Done r, c') ->
  exists (before : list string) (line : string),
    stdin c = before ++ line :: stdin c' /\ lower line = r.
Proof.
  intros Hr H. unfold main_loop_round in H.
  apply bind_done in H. destruct H as (d & c1 & H1 & H).
  apply forward_parameters_input_loop in H1. destruct H1 as [p1 E1].
  apply bind_done in H. destruct H as (o & c2 & H2 & H).
  apply forward_raise_from in H2. destruct H2 as [p2 E2].
  apply bind_done in H. destruct H as (u3 & c3 & H3 & H).
  apply forward_io_print in H3. destruct H3 as [p3 E3].
  apply bind_done in H. destruct H as (price & c4 & H4 & H).
  apply forward_call_pricer_BS in H4. destruct H4 as [p4 E4].
  apply bind_done in H. destruct H as (u5 & c5 & H5 & H).
  apply forward_io_print in H5. destruct H5 as [p5 E5].
  apply bind_done in H. destruct H as (u6 & c6 & H6 & H).
  apply forward_io_print in H6. destruct H6 as [p6 E6].
  destruct (restart_loop_last fuel restart c6 c' r Hr H)
    as (pre & line & E & Hl).
  exists (p1 ++ p2 ++ p3 ++ p4 ++ p5 ++ p6 ++ pre), line.
  split; [| exact Hl].
  rewrite E1, E2, E3, E4, E5, E6, E. now rewrite <- !app_assoc.
Qed.

Lemma main_loop_rounds_last
    (fuel : nat) (restart : string) (c c' : console) :
  main_loop_rounds float float_str fuel restart c = (Done tt, c') ->
  (restart = "n"%string /\ c' = c)
  \/ exists (before : list string) (line : string),
       stdin c = before ++ line :: stdin c' /\ lower line = "n"%string.
Proof.
  revert restart c. induction fuel as [| fuel IH]; intros restart c;
    [discriminate |].
  cbn [main_loop_rounds].
  destruct (String.eqb_spec restart "n") as [-> | Hr]; cbn [negb].
  - intros [= <-]. left. split; reflexivity.
  - intros H. right.
    apply bind_done in H. destruct H as (r & c1 & H1 & H).
    destruct (main_loop_round_last (S fuel) restart c c1 r Hr H1)
      as (pre & line & E & Hl).
    destruct (IH r c1 H) as [[-> ->] | (pre' & line' & E' & Hl')].
    + now exists pre, line.
    + exists (pre ++ line :: pre'), line'. split; [| exact Hl'].
      rewrite E, E', <- app_assoc. reflexivity.
Qed.

(** X16.  [main_loop] returns only on the answer "n": whatever is typed,
    when it returns, the last line it has read is "n" up to case, and
    the lines it has not read are those that follow it. *)
Theorem main_loop_returns_after_no (fuel : nat) (c c' : console) :
  main_loop float float_str fuel c = (Done tt, c') ->
  exists (before : list string) (line : string),
    stdin c = before ++ line :: stdin c' /\ lower line = "n"%string.
Proof.
  intros H. unfold main_loop in H.
  apply bind_done in H. destruct H as (u & c1 & H1 & H).
  assert (E1 : stdin c1 = stdin c).
  { revert H1. unfold boot_menu. io_step. now intros [= _ <-]. }
  destruct (main_loop_rounds_last fuel "" c1 c' H)
    as [[Hn _] | (pre & line & E & Hl)]; [discriminate |].
  exists pre, line. rewrite <- E1. split; assumption.
Qed.

End Returns.

(** A session of one round, answered "N". *)
Lemma at_the_money_session :
  main_loop decimal_float unrendered 2
    {| stdin := flat_map (fun aq => typed (fst aq))
                  [(at_the_money_lines "C" "N", at_the_money true)]
                ++ ["ls"%string];
       screen := [] |}
  = (Done tt,
     {| stdin := ["ls"%string];
        screen := [] ++ boot_screen unrendered
                  ++ flat_map (fun aq => round_screen unrendered (snd aq))
                       [(at_the_money_lines "C" "N", at_the_money true)]
     |}).
Proof.
  unfold main_loop, boot_menu. io_step. cbn [py_str VERSION].
  rewrite (main_loop_rounds_session decimal_float unrendered
             [(at_the_money_lines "C" "N", at_the_money true)] 2 ""
             ["ls"%string] _).
  - unfold boot_screen. rewrite <- !app_assoc. reflexivity.
  - discriminate.
  - apply Forall_cons;
      [apply (at_the_money_reads true); reflexivity | apply Forall_nil].
  - reflexivity.
  - cbn. repeat constructor.
Qed.

Lemma main_loop_returns_after_no_witness :
  exists (before : list string) (line : string),
    flat_map (fun aq => typed (fst aq))
      [(at_the_money_lines "C" "N", at_the_money true)]
    ++ ["ls"%string]
    = before ++ line :: ["ls"%string]
    /\ lower line = "n"%string.
Proof.
  apply (main_loop_returns_after_no decimal_float unrendered 2
           {| stdin := flat_map (fun aq => typed (fst aq))
                         [(at_the_money_lines "C" "N", at_the_money true)]
                       ++ ["ls"%string];
              screen := [] |}
           {| stdin := ["ls"%string];
              screen := [] ++ boot_screen unrendered
                        ++ flat_map
                             (fun aq => round_screen unrendered (snd aq))
                             [(at_the_money_lines "C" "N",
                               at_the_money true)] |}).
  exact at_the_money_session.
Defined.

(** ** Bounds of the call price *)

(** The value at the best threshold is above the limits of the value at
    both ends, and below the spot. *)
Lemma threshold_best_bounds (S K' v : R) :
  0 < S -> 0 < K' -> 0 < v ->
  let p := threshold_value S K' v (best_threshold S K' v) in
  0 <= p /\ S - K' <= p /\ p < S.
Proof.
  intros HS HK Hv p.
  assert (Hopt : forall d, threshold_value S K' v d <= p)
    by (intros d; apply threshold_optimal; assumption).
  repeat split.
  - destruct (Rle_lt_dec 0 p) as [H | H]; [exact H | exfalso].
    destruct (norm_cdf_sup (- p / K')) as [x Hx].
    { apply Rdiv_lt_0_compat; lra. }
    specialize (Hopt (- x + v)). unfold threshold_value in Hopt.
    replace (- x + v - v) with (- x) in Hopt by ring.
    rewrite norm_cdf_sym in Hopt.
    pose proof (norm_cdf_nonneg (- x + v)) as H0.
    assert (H1 : K' * (1 - norm_cdf x) < - p).
    { replace (- p) with (K' * (- p / K')) by (field; lra).
      apply Rmult_lt_compat_l; lra. }
    assert (0 <= S * norm_cdf (- x + v)) by (apply Rmult_le_pos; lra).
    lra.
  - destruct (Rle_lt_dec (S - K') p) as [H | H]; [exact H | exfalso].
    destruct (norm_cdf_sup ((S - K' - p) / S)) as [x Hx].
    { apply Rdiv_lt_0_compat; lra. }
    specialize (Hopt x). unfold threshold_value in Hopt.
    pose proof (norm_cdf_le_1 (x - v)) as H1.
    assert (H2 : S * (1 - (S - K' - p) / S) < S * norm_cdf x)
      by (apply Rmult_lt_compat_l; lra).
    replace (S * (1 - (S - K' - p) / S)) with (K' + p) in H2
      by (field; lra).
    assert (K' * norm_cdf (x - v) <= K' * 1)
      by (apply Rmult_le_compat_l; lra).
    lra.
  - subst p. unfold threshold_value.
    set (d := best_threshold S K' v).
    pose proof (norm_cdf_le_1 d) as H1.
    pose proof (norm_cdf_nonneg (d - v - 1)) as H0.
    pose proof (norm_cdf_incr (d - v - 1) (d - v) ltac:(lra)) as H2.
    assert (S * norm_cdf d <= S * 1) by (apply Rmult_le_compat_l; lra).
    assert (0 < K' * norm_cdf (d - v)) by (apply Rmult_lt_0_compat; lra).
    lra.
Qed.

(** X17.  The price [pricer_BS] returns for a call, on positive numbers,
    lies between the intrinsic value of the forward,
    [max 0 (S - K * exp (- r * T))], and the underlying price. *)
Theorem call_price_bounds (o : Option) (out : list string) (S K sigma : R) :
  is_call o = VBool true ->
  as_real (underlying_price o) = Some S ->
  as_real (strike o) = Some K ->
  as_real (volatility o) = Some sigma ->
  0 < S -> 0 < K -> 0 < sigma -> 0 < time_to_expiration o ->
  exists p : R,
    pricer_BS {| self := o; stdout := out |}
    = (Ok (VFloat p), {| self := o; stdout := out |})
    /\ 0 <= p
    /\ S - K * exp (- rfree_continuous o * time_to_expiration o) <= p
    /\ p < S.
Proof.
  intros Hc HS HK Hv HS0 HK0 Hs0 HT0.
  rewrite (pricer_BS_run o out S K sigma HS HK Hv (Rgt_not_eq _ _ HK0)).
  cbv zeta. rewrite Hc. cbn [is_True].
  eexists. split; [reflexivity |].
  rewrite spec_call_threshold, spec_d1_best by assumption.
  apply threshold_best_bounds.
  - exact HS0.
  - apply Rmult_lt_0_compat; [exact HK0 | apply exp_pos].
  - apply Rmult_lt_0_compat; [exact Hs0 | apply sqrt_lt_R0; exact HT0].
Qed.

Lemma call_price_bounds_witness :
  exists p : R,
    pricer_BS {| self := scenario true; stdout := [] |}
    = (Ok (VFloat p), {| self := scenario true; stdout := [] |})
    /\ 0 <= p
    /\ 100 - 100 * exp (- rfree_continuous (scenario true)
                          * time_to_expiration (scenario true)) <= p
    /\ p < 100.
Proof.
  apply (call_price_bounds (scenario true) [] 100 100 0.2);
    try reflexivity; cbn [time_to_expiration scenario]; lra.
Defined.

(** ** The price against the strike *)

Lemma call_on_with_strike (o : Option) (b : bool) (S K sigma : R) :
  is_call o = VBool b -> as_real (underlying_price o) = Some S ->
  K <> 0 -> as_real (volatility o) = Some sigma ->
  fst (call_on (with_strike o (VFloat K)))
  = Ok (VFloat (spec_price b S K (time_to_expiration o)
                  (rfree_continuous o) sigma)).
Proof.
  intros Hc HS HK0 Hv. unfold call_on.
  rewrite (pricer_BS_run _ [] S K sigma); try assumption;
    try reflexivity.
  cbn [with_strike is_call time_to_expiration rfree_continuous].
  rewrite Hc. destruct b; reflexivity.
Qed.

(** [d1] does not increase when the strike grows. *)
Lemma spec_d1_mono_K (S K1 K2 T r sigma : R) :
  0 < S -> 0 < K1 -> K1 <= K2 -> 0 < T -> 0 < sigma ->
  spec_d1 S K2 T r sigma <= spec_d1 S K1 T r sigma.
Proof.
  intros HS HK1 HK HT Hs. unfold spec_d1.
  pose proof (sqrt_lt_R0 T HT) as Hq.
  assert (Hden : 0 < sigma * sqrt T) by (apply Rmult_lt_0_compat; lra).
  assert (Hln : ln (S / K2) <= ln (S / K1)).
  { apply ln_mono; [apply Rdiv_lt_0_compat; lra |].
    apply Rmult_le_compat_l; [lra |].
    apply Rinv_le_contravar; lra. }
  apply Rmult_le_compat_r; [left; apply Rinv_0_lt_compat; lra | lra].
Qed.

(** The call branch does not increase when the strike grows: the
    smaller strike does at least as well with the threshold of the
    larger one. *)
Lemma spec_call_mono_K (S K1 K2 T r sigma : R) :
  0 < S -> 0 < K1 -> K1 <= K2 -> 0 < T -> 0 < sigma ->
  spec_price true S K2 T r sigma <= spec_price true S K1 T r sigma.
Proof.
  intros HS HK1 HK HT Hs.
  pose proof (exp_pos (- r * T)) as He.
  pose proof (sqrt_lt_R0 T HT) as Hq.
  assert (HK' : 0 < K1 * exp (- r * T)) by (apply Rmult_lt_0_compat; lra).
  assert (Hv : 0 < sigma * sqrt T) by (apply Rmult_lt_0_compat; lra).
  rewrite (spec_call_threshold S K1).
  rewrite (spec_d1_best S K1 T r sigma) by lra.
  pose proof (threshold_optimal S (K1 * exp (- r * T)) (sigma * sqrt T)
                (spec_d1 S K2 T r sigma) HS HK' Hv) as Hopt.
  apply Rle_trans
    with (threshold_value S (K1 * exp (- r * T)) (sigma * sqrt T)
            (spec_d1 S K2 T r sigma)); [| exact Hopt].
  rewrite (spec_call_threshold S K2). unfold threshold_value.
  pose proof (norm_cdf_nonneg (spec_d1 S K2 T r sigma - sigma * sqrt T))
    as H0.
  assert (K1 * exp (- r * T) <= K2 * exp (- r * T))
    by (apply Rmult_le_compat_r; lra).
  nra.
Qed.

(** The put branch does not decrease when the strike grows. *)
Lemma spec_put_mono_K (S K1 K2 T r sigma : R) :
  0 < S -> 0 < K1 -> K1 <= K2 -> 0 < T -> 0 < sigma ->
  spec_price false S K1 T r sigma <= spec_price false S K2 T r sigma.
Proof.
  intros HS HK1 HK HT Hs.
  pose proof (exp_pos (- r * T)) as He.
  pose proof (spec_d1_mono_K S K1 K2 T r sigma HS HK1 HK HT Hs) as Hd.
  unfold spec_price, spec_d2.
  assert (H1 : norm_cdf (spec_d1 S K2 T r sigma)
               <= norm_cdf (spec_d1 S K1 T r sigma))
    by (apply norm_cdf_mono; lra).
  assert (H2 : norm_cdf (- (spec_d1 S K1 T r sigma - sigma * sqrt T))
               <= norm_cdf (- (spec_d1 S K2 T r sigma - sigma * sqrt T)))
    by (apply norm_cdf_mono; lra).
  pose proof (norm_cdf_nonneg
                (- (spec_d1 S K1 T r sigma - sigma * sqrt T))) as H0.
  assert (H3 : S * norm_cdf (spec_d1 S K2 T r sigma)
               <= S * norm_cdf (spec_d1 S K1 T r sigma))
    by (apply Rmult_le_compat_l; lra).
  assert (H4 : K1 * exp (- r * T)
               * norm_cdf (- (spec_d1 S K1 T r sigma - sigma * sqrt T))
               <= K2 * exp (- r * T)
                  * norm_cdf (- (spec_d1 S K2 T r sigma
                                 - sigma * sqrt T))).
  { apply Rmult_le_compat; try lra.
    - apply Rmult_le_pos; lra.
    - apply Rmult_le_compat_r; lra. }
  lra.
Qed.

(** X18.  With the other attributes held fixed, on positive numbers:
    the price [pricer_BS] returns for a call does not increase when the
    strike grows, and the price it returns for a put does not
    decrease. *)
Theorem strike_monotone
    (o : Option) (b : bool) (S sigma K1 K2 : R) :
  is_call o = VBool b ->
  as_real (underlying_price o) = Some S -> 0 < S ->
  as_real (volatility o) = Some sigma -> 0 < sigma ->
  0 < time_to_expiration o ->
  0 < K1 -> K1 <= K2 ->
  exists p1 p2 : R,
    fst (call_on (with_strike o (VFloat K1))) = Ok (VFloat p1)
    /\ fst (call_on (with_strike o (VFloat K2))) = Ok (VFloat p2)
    /\ (if b then p2 <= p1 else p1 <= p2).
Proof.
  intros Hc HS HS0 Hv Hs0 HT HK1 HK.
  rewrite (call_on_with_strike o b S K1 sigma Hc HS) by (assumption || lra).
  rewrite (call_on_with_strike o b S K2 sigma Hc HS) by (assumption || lra).
  eexists. eexists. split; [reflexivity |]. split; [reflexivity |].
  destruct b.
  - apply spec_call_mono_K; assumption.
  - apply spec_put_mono_K; assumption.
Qed.

Lemma strike_monotone_witness :
  exists p1 p2 : R,
    fst (call_on (with_strike (scenario true) (VFloat 100)))
    = Ok (VFloat p1)
    /\ fst (call_on (with_strike (scenario true) (VFloat 110)))
       = Ok (VFloat p2)
    /\ p2 <= p1.
Proof.
  apply (strike_monotone (scenario true) true 100 0.2 100 110);
    try reflexivity; cbn [time_to_expiration scenario]; lra.
Defined.

(** ** The price against the scale of the prices *)

Lemma spec_d1_scaled (lam S K T r sigma : R) :
  lam <> 0 -> K <> 0 ->
  spec_d1 (lam * S) (lam * K) T r sigma = spec_d1 S K T r sigma.
Proof.
  intros Hl HK. unfold spec_d1.
  replace (lam * S / (lam * K)) with (S / K) by (field; split; assumption).
  reflexivity.
Qed.

Lemma spec_price_scaled (b : bool) (lam S K T r sigma : R) :
  lam <> 0 -> K <> 0 ->
  spec_price b (lam * S) (lam * K) T r sigma
  = lam * spec_price b S K T r sigma.
Proof.
  intros Hl HK. unfold spec_price, spec_d2.
  rewrite (spec_d1_scaled lam S K T r sigma Hl HK).
  destruct b; ring.
Qed.

(** X19.  The price is homogeneous of degree one in the two prices: with
    the underlying price and the strike both multiplied by a factor
    above zero, all else equal, [pricer_BS] returns the price multiplied
    by that factor, for a call and for a put. *)
Theorem price_homogeneous (o : Option) (b : bool) (S K sigma lam : R) :
  is_call o = VBool b ->
  as_real (underlying_price o) = Some S -> 0 < S ->
  as_real (strike o) = Some K -> 0 < K ->
  as_real (volatility o) = Some sigma -> 0 < sigma ->
  0 < time_to_expiration o ->
  0 < lam ->
  exists p : R,
    fst (call_on o) = Ok (VFloat p)
    /\ fst (call_on (with_strike
                       (with_underlying_price o (VFloat (lam * S)))
                       (VFloat (lam * K))))
       = Ok (VFloat (lam * p)).
Proof.
  intros Hc HS HS0 HK HK0 Hv Hs0 HT Hl.
  exists (spec_price b S K (time_to_expiration o) (rfree_continuous o)
            sigma).
  split.
  - unfold call_on.
    rewrite (pricer_BS_run o [] S K sigma HS HK Hv (Rgt_not_eq _ _ HK0)).
    cbv zeta. rewrite Hc. destruct b; reflexivity.
  - rewrite (call_on_with_strike _ b (lam * S) (lam * K) sigma);
      try assumption; try reflexivity.
    + cbn [with_underlying_price time_to_expiration rfree_continuous].
      rewrite spec_price_scaled by lra. reflexivity.
    + apply Rgt_not_eq. apply Rmult_lt_0_compat; assumption.
Qed.

Lemma price_homogeneous_witness :
  exists p : R,
    fst (call_on (scenario false)) = Ok (VFloat p)
    /\ fst (call_on (with_strike
                       (with_underlying_price (scenario false)
                          (VFloat (2 * 100)))
                       (VFloat (2 * 100))))
       = Ok (VFloat (2 * p)).
Proof.
  apply (price_homogeneous (scenario false) false 100 100 0.2 2);
    try reflexivity; cbn [time_to_expiration scenario]; lra.
Defined.

(** ** The dictionary of the constructor *)

Lemma py_index_1_inv (x : option (list value)) (v : value) :
  py_index x 1 = Ok v ->
  exists (label : value) (more : list value), x = Some (label :: v :: more).
Proof.
  destruct x as [[| label [| v' more]] |]; try discriminate.
  intros [= ->]. now exists label, more.
Qed.

(** X20.  When [option_parameters] is given, the constructor reads it
    and nothing else: the seven keywords are ignored.  It returns a
    contract only if the dictionary has, under each of the seven keys,
    a list of two elements at least; with no entry under "is_call" it
    raises [TypeError] ([None] has no element), with an entry of fewer
    than two elements it raises [IndexError]. *)
Theorem init_dictionary_entries (a : init_args) (d : dict (list value)) :
  arg_option_parameters a = Some d ->
  __init__ a = __init__ (parameters d)
  /\ (forall o : Option,
        __init__ a = Ok o ->
        forall key : string,
          In key option_keys ->
          exists (label v : value) (more : list value),
            dict_get d key = Some (label :: v :: more))
  /\ (dict_get d "is_call" = None -> __init__ a = Raise TypeError)
  /\ (forall l : list value,
        dict_get d "is_call" = Some l -> (List.length l < 2)%nat ->
        __init__ a = Raise IndexError).
Proof.
  intros Hd.
  assert (E : __init__ a = __init__ (parameters d)).
  { unfold __init__, parameters. rewrite Hd. reflexivity. }
  rewrite E. split; [reflexivity |]. split; [| split].
  - intros o. unfold __init__, parameters. cbn [arg_option_parameters].
    destruct (py_index (dict_get d "is_call") 1) as [c |] eqn:E1;
      [| discriminate].
    destruct (py_index (dict_get d "underlying_price") 1) as [s |] eqn:E2;
      [| discriminate].
    destruct (py_index (dict_get d "strike") 1) as [k |] eqn:E3;
      [| discriminate].
    destruct (py_index (dict_get d "time_unit") 1) as [u |] eqn:E4;
      [| discriminate].
    destruct (py_index (dict_get d "time_to_expiration") 1) as [t |] eqn:E5;
      [| discriminate].
    cbn [bind result_monad].
    destruct (py_truediv t u) as [q |]; [| discriminate].
    destruct (py_index (dict_get d "rfree_discrete") 1) as [r |] eqn:E6;
      [| discriminate].
    destruct (py_index (dict_get d "volatility") 1) as [v |] eqn:E7;
      [| discriminate].
    intros _ key Hkey. unfold option_keys in Hkey. cbn [In] in Hkey.
    destruct Hkey as [<- | [<- | [<- | [<- | [<- | [<- | [<- | []]]]]]]];
      [destruct (py_index_1_inv _ _ E1) as (label & more & ->)
      | destruct (py_index_1_inv _ _ E2) as (label & more & ->)
      | destruct (py_index_1_inv _ _ E3) as (label & more & ->)
      | destruct (py_index_1_inv _ _ E4) as (label & more & ->)
      | destruct (py_index_1_inv _ _ E5) as (label & more & ->)
      | destruct (py_index_1_inv _ _ E6) as (label & more & ->)
      | destruct (py_index_1_inv _ _ E7) as (label & more & ->)];
      eauto.
  - intros H. unfold __init__, parameters. cbn [arg_option_parameters].
    rewrite H. reflexivity.
  - intros l H Hlen. unfold __init__, parameters.
    cbn [arg_option_parameters]. rewrite H.
    destruct l as [| x [| y l]]; try reflexivity.
    cbn [List.length] in Hlen. lia.
Qed.

Lemma init_dictionary_entries_witness :
  __init__ (keywords (VBool true) (VFloat 100) (VInt 1) (VFloat 1)
              (VFloat 100) (VFloat 0.05) (VFloat 0.2))
  = Ok (scenario true)
  /\ __init__
       {| arg_is_call := VBool true; arg_underlying_price := VFloat 100;
          arg_time_unit := VInt 1; arg_time_to_expiration := VFloat 1;
          arg_strike := VFloat 100; arg_rfree_discrete := VFloat 0.05;
          arg_volatility := VFloat 0.2;
          arg_option_parameters := Some [] |}
     = Raise TypeError.
Proof.
  split; [apply init_scenario |].
  apply (init_dictionary_entries
           {| arg_is_call := VBool true; arg_underlying_price := VFloat 100;
              arg_time_unit := VInt 1; arg_time_to_expiration := VFloat 1;
              arg_strike := VFloat 100; arg_rfree_discrete := VFloat 0.05;
              arg_volatility := VFloat 0.2;
              arg_option_parameters := Some [] |} []);
    reflexivity.
Defined.
